(** * htrflow_app: the page-inference pipeline of [src/htr_pipeline/inferencer.py]

    The development embeds the [Inferencer] class (region stage, line stage and
    the two transcription entry points) as functions in a small trace-and-error
    monad, next to models of the helper classes it calls
    ([FilterSegMask], [SegMaskHelper], [OrderObject]).

    Numbers: confidence scores, thresholds and containment ratios are Python
    floats in the program; they are represented by rationals ([Q]), which is
    exact for the comparisons the pipeline makes on finite floats. *)

From Stdlib Require Import String.
From Stdlib Require Import List Bool Arith ZArith QArith Qabs Qround Permutation Lia.
Import ListNotations.

Local Close Scope Q_scope.
Local Open Scope nat_scope.
Local Open Scope list_scope.

(* ================================================================== *)
(** ** Python-level outcomes *)
(* ================================================================== *)

(** Exceptions the pipeline can end with. [GrError] is [gr.Error(msg)];
    [InvalidThreshold] is the error of the specification's taxonomy;
    [IndexError] is what a list (or tensor) subscript out of range raises. *)
Inductive PyError : Type :=
| GrError (msg : string)
| InvalidThreshold
| IndexError.

Inductive result (A : Type) : Type :=
| Ok (a : A)
| Raise (e : PyError).
Arguments Ok {A} a.
Arguments Raise {A} e.

(** The two messages of [inferencer.py]. *)
Definition NoRegionsDetected : PyError :=
  GrError "No Regions were predicted by the model".
Definition NoLinesDetected : PyError :=
  GrError "No Lines were predicted by the model".

(** Python subscript [l[i]]: a negative index counts from the end, anything
    outside [-len, len) raises [IndexError] (here: [None]). *)
Definition py_index {A : Type} (l : list A) (i : Z) : option A :=
  if (0 <=? i)%Z then nth_error l (Z.to_nat i)
  else if (- Z.of_nat (length l) <=? i)%Z
       then nth_error l (Z.to_nat (Z.of_nat (length l) + i))
       else None.

(** The list comprehension [[l[i] for i in order]]. *)
Fixpoint py_select {A : Type} (l : list A) (order : list Z) : result (list A) :=
  match order with
  | [] => Ok []
  | i :: rest =>
      match py_index l i with
      | None => Raise IndexError
      | Some x =>
          match py_select l rest with
          | Ok xs => Ok (x :: xs)
          | Raise e => Raise e
          end
      end
  end.

(** [stable_sub l1 l2]: [l1] is [l2] with some elements left out, the others
    in their original order. *)
Inductive stable_sub {A : Type} : list A -> list A -> Prop :=
| stable_sub_nil : stable_sub [] []
| stable_sub_keep x l1 l2 : stable_sub l1 l2 -> stable_sub (x :: l1) (x :: l2)
| stable_sub_drop x l1 l2 : stable_sub l1 l2 -> stable_sub l1 (x :: l2).

(* ================================================================== *)
(** ** Data model: masks and instances *)
(* ================================================================== *)

(** A mask is a binary pixel array, one [list bool] per image row. *)
Definition Mask : Type := list (list bool).

(** One predicted object: its mask and its confidence score. *)
Record Instance : Type := mkInstance {
  mask : Mask;
  score : Q
}.

(** [result["predictions"][0]]: a data sample whose [pred_instances] holds the
    predicted instances. *)
Record DetDataSample : Type := mkSample {
  pred_instances : list Instance
}.

(** [ds.pred_instances.masks] *)
Definition masks (ds : DetDataSample) : list Mask :=
  map mask (pred_instances ds).

(* ------------------------------------------------------------------ *)
(** *** GeometryUtils *)
(* ------------------------------------------------------------------ *)

Definition count_true (row : list bool) : nat :=
  length (filter (fun b => b) row).

Definition area (m : Mask) : nat :=
  list_sum (map count_true m).

Definition and_row (r1 r2 : list bool) : list bool :=
  map (fun p => andb (fst p) (snd p)) (combine r1 r2).

Definition mask_and (a b : Mask) : Mask :=
  map (fun p => and_row (fst p) (snd p)) (combine a b).

Definition Qnat (n : nat) : Q := inject_Z (Z.of_nat n).

(** Modelled from the spec: [containment_ratio(A, B) = area(A ∩ B) / area(A)]
    (the helper computing it is not part of the available sources). The spec
    does not say what a zero-area [A] gives; the rational quotient is [0]
    there. *)
Definition containment_ratio (a b : Mask) : Q :=
  (Qnat (area (mask_and a b)) / Qnat (area a))%Q.

(** Column indices of the set pixels of a row, counted from [k]. *)
Fixpoint true_positions (k : nat) (row : list bool) : list nat :=
  match row with
  | [] => []
  | b :: rest =>
      if b then k :: true_positions (S k) rest else true_positions (S k) rest
  end.

(** Row indices holding at least one set pixel, counted from [k]. *)
Fixpoint occupied_rows (k : nat) (m : Mask) : list nat :=
  match m with
  | [] => []
  | row :: rest =>
      if existsb (fun b => b) row
      then k :: occupied_rows (S k) rest
      else occupied_rows (S k) rest
  end.

Definition occupied_cols (m : Mask) : list nat :=
  concat (map (true_positions 0) m).

Definition list_min (l : list nat) : nat :=
  match l with
  | [] => 0
  | x :: rest => fold_right Nat.min x rest
  end.

(** Axis-aligned bounding box [(top, bottom, left, right)], inclusive;
    [None] for a mask without set pixels. *)
Definition bbox (m : Mask) : option (nat * nat * nat * nat) :=
  match occupied_rows 0 m with
  | [] => None
  | rows =>
      let cols := occupied_cols m in
      Some (list_min rows, list_max rows, list_min cols, list_max cols)
  end.

Definition v_center (m : Mask) : Q :=
  match bbox m with
  | Some (t, b, _, _) => ((Qnat t + Qnat b) / 2)%Q
  | None => 0%Q
  end.

Definition h_center (m : Mask) : Q :=
  match bbox m with
  | Some (_, _, l, r) => ((Qnat l + Qnat r) / 2)%Q
  | None => 0%Q
  end.

Definition height (m : Mask) : Q :=
  match bbox m with
  | Some (t, b, _, _) => Qnat (b - t + 1)
  | None => 0%Q
  end.

Definition width (m : Mask) : Q :=
  match bbox m with
  | Some (_, _, l, r) => Qnat (r - l + 1)
  | None => 0%Q
  end.

Definition Qlt_bool (x y : Q) : bool := negb (Qle_bool y x).

(* ================================================================== *)
(** ** FilterSegMask (MaskFilter and OverlapResolver of the specification) *)
(* ================================================================== *)

Module FilterSegMask.

Definition valid_threshold (t : Q) : bool :=
  Qle_bool 0 t && Qle_bool t 1.

(** The instances of [l] whose score reaches [t], in the order of [l]. *)
Fixpoint keep_scored (t : Q) (l : list Instance) : list Instance :=
  match l with
  | [] => []
  | i :: rest =>
      if Qle_bool t (score i)
      then i :: keep_scored t rest
      else keep_scored t rest
  end.

(** Modelled from the spec: [FilterSegMask.filter_on_pred_threshold] is not
    part of the available sources. Section 4.1: keeps the instances with
    [score >= threshold], order preserved; the threshold is validated to
    [[0,1]] and an out-of-range one fails fast (no clamping). *)
Definition filter_on_pred_threshold (ds : DetDataSample) (pred_score_threshold : Q)
  : result DetDataSample :=
  if valid_threshold pred_score_threshold
  then Ok (mkSample (keep_scored pred_score_threshold (pred_instances ds)))
  else Raise InvalidThreshold.

(** [A] is absorbed by [B] when [containment_ratio(A,B) >= threshold]. *)
Definition absorbed (t : Q) (a b : Instance) : bool :=
  Qle_bool t (containment_ratio (mask a) (mask b)).

(** Ordered pairs [(i, j)] of distinct positions below [n], row by row. *)
Definition ordered_pairs (n : nat) : list (nat * nat) :=
  filter (fun p => negb (fst p =? snd p)) (list_prod (seq 0 n) (seq 0 n)).

Definition absorbed_at (t : Q) (l : list Instance) (p : nat * nat) : bool :=
  match nth_error l (fst p), nth_error l (snd p) with
  | Some a, Some b => absorbed t a b
  | _, _ => false
  end.

(** Which of the two positions leaves, for a pair [(i, j)] whose [a] is
    absorbed by [b]. Mutual absorption: the smaller area leaves, at equal
    areas the lower score leaves; the spec is silent when both are equal,
    the later position leaves then. *)
Definition loser (t : Q) (i j : nat) (a b : Instance) : nat :=
  if absorbed t b a then
    if area (mask a) <? area (mask b) then i
    else if area (mask b) <? area (mask a) then j
    else if Qlt_bool (score a) (score b) then i
    else if Qlt_bool (score b) (score a) then j
    else Nat.max i j
  else i.

Fixpoint remove_at {A : Type} (k : nat) (l : list A) : list A :=
  match k, l with
  | _, [] => []
  | 0, _ :: rest => rest
  | S k', x :: rest => x :: remove_at k' rest
  end.

(** One round: find the first absorbed pair and drop its loser. *)
Definition resolve_step (t : Q) (l : list Instance) : option (list Instance) :=
  match find (absorbed_at t l) (ordered_pairs (length l)) with
  | None => None
  | Some (i, j) =>
      match nth_error l i, nth_error l j with
      | Some a, Some b => Some (remove_at (loser t i j a b) l)
      | _, _ => None
      end
  end.

Fixpoint resolve_loop (fuel : nat) (t : Q) (l : list Instance) : list Instance :=
  match fuel with
  | 0 => l
  | S fuel' =>
      match resolve_step t l with
      | None => l
      | Some l' => resolve_loop fuel' t l'
      end
  end.

(** Modelled from the spec: [FilterSegMask.remove_overlapping_masks] is not
    part of the available sources. Section 4.2: an instance absorbed by
    another is removed, with the stated tie-break, and the survivors are
    recomputed until no pair reaches the threshold; every round removes one
    instance, so the instance count bounds the rounds. Survivors keep their
    relative order. *)
Definition remove_overlapping_masks (predicted_mask : DetDataSample)
                                    (containments_threshold : Q) : DetDataSample :=
  let l := pred_instances predicted_mask in
  mkSample (resolve_loop (length l) containments_threshold l).

End FilterSegMask.

(* ================================================================== *)
(** ** OrderObject (ReadingOrderEngine of the specification) *)
(* ================================================================== *)

Module OrderObject.

(** [enumerate(l)]: every element with its position. *)
Definition enumerate {A : Type} (l : list A) : list (nat * A) :=
  combine (seq 0 (length l)) l.

Section StableSort.
Context {A : Type} (key : A -> Q).

Fixpoint insert_by (x : A) (l : list A) : list A :=
  match l with
  | [] => [x]
  | y :: rest =>
      if Qle_bool (key x) (key y) then x :: y :: rest
      else y :: insert_by x rest
  end.

(** Stable insertion sort by ascending key. *)
Definition sort_by (l : list A) : list A := fold_right insert_by [] l.
End StableSort.

Definition Qsum (l : list Q) : Q := fold_right Qplus 0%Q l.

Definition median (l : list Q) : Q :=
  let s := sort_by (fun x => x) l in
  let n := length s in
  if Nat.even n
  then ((nth (n / 2 - 1) s 0%Q + nth (n / 2) s 0%Q) / 2)%Q
  else nth (n / 2) s 0%Q.

(** A line (or region) together with its position in the instance set. *)
Definition Entry : Type := (nat * Instance)%type.
Definition vc (e : Entry) : Q := v_center (mask (snd e)).
Definition hc (e : Entry) : Q := h_center (mask (snd e)).

(** Sweep over the lines sorted by vertical centre: a line joins the band
    being built when its centre is closer than [thr] to the centre of the
    line before it, and opens a new band otherwise. *)
Fixpoint group_bands (thr prev : Q) (cur : list Entry) (l : list Entry)
  : list (list Entry) :=
  match l with
  | [] => [cur]
  | x :: rest =>
      if Qlt_bool (Qabs (vc x - prev)) thr
      then group_bands thr (vc x) (cur ++ [x]) rest
      else cur :: group_bands thr (vc x) [x] rest
  end.

Definition bands (thr : Q) (l : list Entry) : list (list Entry) :=
  match l with
  | [] => []
  | x :: rest => group_bands thr (vc x) [x] rest
  end.

Definition band_mean (b : list Entry) : Q :=
  (Qsum (map vc b) / Qnat (length b))%Q.

(** Modelled from the spec: [OrderObject.order_lines] is not part of the
    available sources. Section 4.4, line mode: two lines share a band when
    their vertical centres are closer than
    [line_spacing_factor * median_line_height]; a band is read left to right
    by horizontal centre, bands top to bottom by their mean vertical centre.
    The result lists positions of the instance set. *)
Definition order_lines (line_image : DetDataSample) (line_spacing_factor : Q)
  : list nat :=
  let entries := enumerate (pred_instances line_image) in
  let thr :=
    (line_spacing_factor * median (map (fun e => height (mask (snd e))) entries))%Q in
  let grouped := bands thr (sort_by vc entries) in
  let read := map (sort_by hc) grouped in
  map fst (concat (sort_by band_mean read)).

Section Regions.
(** The rule that tells marginalia from main text and the clustering of
    horizontal centres into columns are left open by the specification
    (section 9); both are parameters, given the whole instance set. *)
Variable is_marginalia : list Instance -> Instance -> bool.
Variable column_of : list Instance -> Instance -> nat.

(** Modelled from the spec: [OrderObject.order_regions_marginalia] is not
    part of the available sources. Section 4.4, region mode: main-text
    regions first, left column before right column and top to bottom
    within a column; marginalia after them, top to bottom. *)
Definition order_regions_marginalia (region_image : DetDataSample) : list nat :=
  let insts := pred_instances region_image in
  let entries := enumerate insts in
  let main := filter (fun e => negb (is_marginalia insts (snd e))) entries in
  let marg := filter (fun e => is_marginalia insts (snd e)) entries in
  let main_read :=
    sort_by (fun e => Qnat (column_of insts (snd e))) (sort_by vc main) in
  map fst (main_read ++ sort_by vc marg).
End Regions.

(** One concrete choice of the open rules: a region narrower than a quarter
    of the widest one is marginalia; a single column. *)
Definition widest (insts : list Instance) : Q :=
  fold_right (fun i acc => if Qle_bool acc (width (mask i)) then width (mask i) else acc)
             0%Q insts.
Definition narrow_is_marginalia (insts : list Instance) (i : Instance) : bool :=
  Qlt_bool (4 * width (mask i))%Q (widest insts).
Definition single_column (insts : list Instance) (i : Instance) : nat := 0.

End OrderObject.

(* ================================================================== *)
(** ** SegMaskHelper (MaskAligner / Cropper of the specification) *)
(* ================================================================== *)

Module SegMaskHelper.

(** Images as rows of grey values. *)
Definition Image : Type := list (list Z).
Definition Polygon : Type := list (nat * nat).

(** [l] cut or padded with [d] to exactly [n] elements. *)
Definition fit {A : Type} (d : A) (n : nat) (l : list A) : list A :=
  firstn n (l ++ repeat d n).

Definition image_width (image : Image) : nat :=
  match image with
  | [] => 0
  | row :: _ => length row
  end.

Definition align_mask (image : Image) (m : Mask) : Mask :=
  let w := image_width image in
  fit (repeat false w) (length image) (map (fit false w) m).

(** Modelled from the spec: [SegMaskHelper.align_masks_with_image] is not
    part of the available sources. Section 4.3: every mask is brought into
    the pixel frame of the source image; here the mask array is cut or
    padded to the image's shape. Scores and the number of instances are
    untouched. *)
Definition align_masks_with_image (result : DetDataSample) (image : Image)
  : DetDataSample :=
  mkSample (map (fun i => mkInstance (align_mask image (mask i)) (score i))
                (pred_instances result)).

Definition slice {A : Type} (lo hi : nat) (l : list A) : list A :=
  firstn (hi + 1 - lo) (skipn lo l).

Definition crop_one (image : Image) (m : Mask) : Image :=
  match bbox m with
  | Some (t, b, l, r) => map (slice l r) (slice t b image)
  | None => []
  end.

(** The boundary tracing is not specified; the polygon of a mask is taken
    to be the corner sequence of its bounding box, as [(x, y)] points. *)
Definition polygon_one (m : Mask) : Polygon :=
  match bbox m with
  | Some (t, b, l, r) => [(l, t); (r, t); (r, b); (l, b)]
  | None => []
  end.

(** Modelled from the spec: [SegMaskHelper.crop_masks] is not part of the
    available sources. Section 4.3: one crop (the polygon's bounding box,
    inside the image) and one polygon per instance, index-aligned with the
    instance set. The call site in [inferencer.py] receives exactly these two
    sequences and no count of dropped instances, so a mask without pixels
    yields an empty crop and an empty polygon here. *)
Definition crop_masks (result : DetDataSample) (image : Image)
  : list Image * list Polygon :=
  (map (fun i => crop_one image (mask i)) (pred_instances result),
   map (fun i => polygon_one (mask i)) (pred_instances result)).

End SegMaskHelper.

(** Python's [round(x, ndigits)], on rationals: the nearest multiple of
    [10^-ndigits], a tie going to the even one. On a float Python returns the
    double nearest to that decimal, which this does not represent. *)
Definition round_half_even (x : Q) : Z :=
  let f := Qfloor x in
  match Qcompare (x - inject_Z f)%Q (1 # 2)%Q with
  | Lt => f
  | Gt => (f + 1)%Z
  | Eq => if Z.even f then f else (f + 1)%Z
  end.

Definition py_round (x : Q) (ndigits : nat) : Q :=
  let scale := inject_Z (10 ^ Z.of_nat ndigits) in
  (inject_Z (round_half_even (x * scale)) / scale)%Q.

(* ================================================================== *)
(** ** The [Inferencer] class of [inferencer.py] *)
(* ================================================================== *)

Section Inferencer.

(** Arrays holding pictures (pages, region crops, line crops, rendered
    visualisations) and polygons; their contents play no role in the control
    flow of the class. *)
Variables Image Polygon : Type.

(** Calls to collaborators, in the order they are made. *)
Inductive Event : Type :=
| CallBinarize (input_image : Image)
| CallImread (input_image : Image)
| CallSegModel (image : Image)
| CallLineModel (image : Image)
| CallFilter (pred : DetDataSample) (pred_score_threshold : Q)
| CallAlign (pred : DetDataSample) (image : Image)
| CallRemoveOverlaps (pred : DetDataSample) (containments_threshold : Q)
| CallVisualize (image : Image) (pred : DetDataSample)
| CallCrop (pred : DetDataSample) (image : Image)
| CallOrderRegions (pred : DetDataSample)
| CallOrderLines (pred : DetDataSample) (line_spacing_factor : Q).

(** A computation: the calls it made and how it ended. *)
Definition M (A : Type) : Type := (list Event * result A)%type.

Definition ret {A : Type} (a : A) : M A := ([], Ok a).
Definition raise {A : Type} (e : PyError) : M A := ([], Raise e).
Definition bind {A B : Type} (m : M A) (k : A -> M B) : M B :=
  match m with
  | (tr, Ok a) => let (tr', r) := k a in (tr ++ tr', r)
  | (tr, Raise e) => (tr, Raise e)
  end.
(** A call that cannot fail, and one that can. *)
Definition call {A : Type} (ev : Event) (a : A) : M A := ([ev], Ok a).
Definition try_call {A : Type} (ev : Event) (r : result A) : M A := ([ev], r).
Definition lift {A : Type} (r : result A) : M A := ([], r).

Notation "x <- m ;; k" := (bind m (fun x => k))
  (at level 61, m at next level, right associativity).

Definition trace {A : Type} (m : M A) : list Event := fst m.
Definition outcome {A : Type} (m : M A) : result A := snd m.

(** The objects held by an [Inferencer]. A segmentation model is called on
    an image and yields [result["predictions"][0]]; the region model also
    renders visualisations. *)
Record SegModel : Type := {
  seg_call : Image -> DetDataSample;
  visualize_preds : Image -> DetDataSample -> Image
}.

Record FilterSegMaskT : Type := {
  filter_on_pred_threshold : DetDataSample -> Q -> result DetDataSample;
  remove_overlapping_masks : DetDataSample -> Q -> DetDataSample
}.

Record SegMaskHelperT : Type := {
  align_masks_with_image : DetDataSample -> Image -> DetDataSample;
  crop_masks : DetDataSample -> Image -> list Image * list Polygon
}.

Record OrderObjectT : Type := {
  order_regions_marginalia : DetDataSample -> list Z;
  order_lines : DetDataSample -> Q -> list Z
}.

Record PreprocessT : Type := {
  binarize_img : Image -> Image
}.

Record InferencerT : Type := {
  seg_model : SegModel;
  line_model : SegModel;
  htr_model_inferencer : Image -> string * Q;
  process_seg_mask : SegMaskHelperT;
  postprocess_seg_mask : FilterSegMaskT;
  ordering : OrderObjectT;
  preprocess_img : PreprocessT;
  (** [mmcv.imread], a module-level function of the program *)
  mmcv_imread : Image -> Image
}.

Variable self : InferencerT.

(** [predict_regions], lines 36-71. The [timer_func] decorator of the
    methods is taken to hand the method's result through unchanged. *)
Definition predict_regions (input_image : Image)
           (pred_score_threshold containments_threshold : Q) (visualize : bool)
  : M (option Image * list Image * list Polygon * list Mask) :=
  input_image <- call (CallBinarize input_image)
                      (binarize_img (preprocess_img self) input_image) ;;
  image <- call (CallImread input_image) (mmcv_imread self input_image) ;;
  result_pred <- call (CallSegModel image) (seg_call (seg_model self) image) ;;
  filtered_result_pred <-
    try_call (CallFilter result_pred pred_score_threshold)
             (filter_on_pred_threshold (postprocess_seg_mask self)
                                       result_pred pred_score_threshold) ;;
  if length (masks filtered_result_pred) =? 0
  then raise NoRegionsDetected
  else
    result_align <-
      call (CallAlign filtered_result_pred image)
           (align_masks_with_image (process_seg_mask self) filtered_result_pred image) ;;
    result_clean <-
      call (CallRemoveOverlaps result_align containments_threshold)
           (remove_overlapping_masks (postprocess_seg_mask self)
                                     result_align containments_threshold) ;;
    result_viz <-
      (if visualize
       then v <- call (CallVisualize image result_clean)
                      (visualize_preds (seg_model self) image result_clean) ;;
            ret (Some v)
       else ret None) ;;
    cropped <- call (CallCrop result_clean image)
                    (crop_masks (process_seg_mask self) result_clean image) ;;
    order <- call (CallOrderRegions result_clean)
                  (order_regions_marginalia (ordering self) result_clean) ;;
    regions_cropped_ordered <- lift (py_select (fst cropped) order) ;;
    polygons_ordered <- lift (py_select (snd cropped) order) ;;
    masks_ordered <- lift (py_select (masks result_clean) order) ;;
    ret (result_viz, regions_cropped_ordered, polygons_ordered, masks_ordered).

(** [predict_lines], lines 74-120. [custom_track] is the strict mode of the
    specification. The visualisation is rendered by [self.seg_model]. *)
Definition predict_lines (image : Image)
           (pred_score_threshold containments_threshold line_spacing_factor : Q)
           (visualize custom_track : bool)
  : M (option Image * option (list Image) * option (list Polygon)) :=
  result_tl_pred <- call (CallLineModel image) (seg_call (line_model self) image) ;;
  filtered_result_tl_pred <-
    try_call (CallFilter result_tl_pred pred_score_threshold)
             (filter_on_pred_threshold (postprocess_seg_mask self)
                                       result_tl_pred pred_score_threshold) ;;
  if (length (masks filtered_result_tl_pred) =? 0) && custom_track
  then raise NoLinesDetected
  else if (length (masks filtered_result_tl_pred) =? 0) && negb custom_track
  then ret (None, None, None)
  else
    result_tl_align <-
      call (CallAlign filtered_result_tl_pred image)
           (align_masks_with_image (process_seg_mask self) filtered_result_tl_pred image) ;;
    result_tl_clean <-
      call (CallRemoveOverlaps result_tl_align containments_threshold)
           (remove_overlapping_masks (postprocess_seg_mask self)
                                     result_tl_align containments_threshold) ;;
    result_viz <-
      (if visualize
       then v <- call (CallVisualize image result_tl_clean)
                      (visualize_preds (seg_model self) image result_tl_clean) ;;
            ret (Some v)
       else ret None) ;;
    cropped <- call (CallCrop result_tl_clean image)
                    (crop_masks (process_seg_mask self) result_tl_clean image) ;;
    ordered_indices <-
      call (CallOrderLines result_tl_clean line_spacing_factor)
           (order_lines (ordering self) result_tl_clean line_spacing_factor) ;;
    lines_cropped_ordered <- lift (py_select (fst cropped) ordered_indices) ;;
    lines_polygons_ordered <- lift (py_select (snd cropped) ordered_indices) ;;
    ret (result_viz, Some lines_cropped_ordered, Some lines_polygons_ordered).

(** The page as the region model sees it: binarised, then read. *)
Definition read_page (input_image : Image) : Image :=
  mmcv_imread self (binarize_img (preprocess_img self) input_image).

(** The calls [predict_regions] makes before it looks at the filter's
    answer. *)
Definition region_prefix (input_image : Image) (pred_score_threshold : Q)
  : list Event :=
  [CallBinarize input_image;
   CallImread (binarize_img (preprocess_img self) input_image);
   CallSegModel (read_page input_image);
   CallFilter (seg_call (seg_model self) (read_page input_image)) pred_score_threshold].

Definition line_prefix (image : Image) (pred_score_threshold : Q)
  : list Event :=
  [CallLineModel image;
   CallFilter (seg_call (line_model self) image) pred_score_threshold].

(** [transcribe], lines 123-125: the text and the score of
    [result_rec["predictions"][0]], the score rounded to four digits. *)
Definition transcribe (line_cropped : Image) : string * Q :=
  let result_rec := htr_model_inferencer self line_cropped in
  (fst result_rec, py_round (snd result_rec) 4).

End Inferencer.

Arguments seg_call {Image} _ _.
Arguments visualize_preds {Image} _ _ _.
Arguments align_masks_with_image {Image Polygon} _ _ _.
Arguments crop_masks {Image Polygon} _ _ _.
Arguments binarize_img {Image} _ _.
Arguments seg_model {Image Polygon} _.
Arguments line_model {Image Polygon} _.
Arguments htr_model_inferencer {Image Polygon} _ _.
Arguments process_seg_mask {Image Polygon} _.
Arguments postprocess_seg_mask {Image Polygon} _.
Arguments ordering {Image Polygon} _.
Arguments preprocess_img {Image Polygon} _.
Arguments mmcv_imread {Image Polygon} _ _.
Arguments read_page {Image Polygon} self input_image.
Arguments region_prefix {Image Polygon} self input_image pred_score_threshold.
Arguments line_prefix {Image Polygon} self image pred_score_threshold.
Arguments CallBinarize {Image}.
Arguments CallImread {Image}.
Arguments CallSegModel {Image}.
Arguments CallLineModel {Image}.
Arguments CallFilter {Image}.
Arguments CallAlign {Image}.
Arguments CallRemoveOverlaps {Image}.
Arguments CallVisualize {Image}.
Arguments CallCrop {Image}.
Arguments CallOrderRegions {Image}.
Arguments CallOrderLines {Image}.
Arguments trace {Image A} m.
Arguments outcome {Image A} m.
Arguments predict_regions {Image Polygon} self input_image _ _ visualize.
Arguments predict_lines {Image Polygon} self image _ _ _ visualize custom_track.
Arguments transcribe {Image Polygon} self line_cropped.

(* ------------------------------------------------------------------ *)
(** *** [transcribe_different_model], lines 128-148 *)
(* ------------------------------------------------------------------ *)

Section TranscribeDifferentModel.

(** The [transformers] library: processors and models loaded by name, the
    tensors they exchange. Moving a tensor or a model to a device does not
    change its value and is left out. *)
Variables Image Processor ImageProcessor Model Pixels Ids : Type.
Variable TrOCRProcessor_from_pretrained : string -> Processor.
Variable AutoImageProcessor_from_pretrained : string -> ImageProcessor.
Variable VisionEncoderDecoderModel_from_pretrained : string -> Model.
Variable processor_call : Processor -> Image -> Pixels.
Variable image_processor_call : ImageProcessor -> Image -> Pixels.
Variable generate : Model -> Pixels -> Ids.
Variable batch_decode : Processor -> Ids -> list string.

Definition transcribe_different_model (image : Image)
           (htr_tool_transcriber_model_dropdown : string) : result (string * Q) :=
  let '(processor, model, pixel_values) :=
    if String.eqb htr_tool_transcriber_model_dropdown "pstroe/bullinger-general-model"
    then
      let processor := TrOCRProcessor_from_pretrained "microsoft/trocr-base-handwritten" in
      let image_processor :=
        AutoImageProcessor_from_pretrained "pstroe/bullinger-general-model" in
      let model :=
        VisionEncoderDecoderModel_from_pretrained "pstroe/bullinger-general-model" in
      (processor, model, image_processor_call image_processor image)
    else
      let processor :=
        TrOCRProcessor_from_pretrained htr_tool_transcriber_model_dropdown in
      let model :=
        VisionEncoderDecoderModel_from_pretrained htr_tool_transcriber_model_dropdown in
      (processor, model, processor_call processor image)
  in
  let generated_ids := generate model pixel_values in
  match py_index (batch_decode processor generated_ids) 0 with
  | Some generated_text => Ok (generated_text, 1%Q)
  | None => Raise IndexError
  end.

End TranscribeDifferentModel.

Arguments transcribe_different_model
  {Image Processor ImageProcessor Model Pixels Ids}
  TrOCRProcessor_from_pretrained AutoImageProcessor_from_pretrained
  VisionEncoderDecoderModel_from_pretrained processor_call image_processor_call
  generate batch_decode image htr_tool_transcriber_model_dropdown.

(* ================================================================== *)
(** ** Reading a trace *)
(* ================================================================== *)


(** What the overlap resolver and the aligner were handed, call by call. *)
Definition resolver_inputs {Image : Type} (tr : list (@Event Image)) : list DetDataSample :=
  flat_map (fun ev => match ev with CallRemoveOverlaps ds _ => [ds] | _ => [] end) tr.

Definition aligner_inputs {Image : Type} (tr : list (@Event Image)) : list DetDataSample :=
  flat_map (fun ev => match ev with CallAlign ds _ => [ds] | _ => [] end) tr.

(** The calls of one stage once the filter has left something, shared by
    [predict_regions] and [predict_lines] up to the ordering call. *)
Definition stage_calls {Image : Type} (image : Image)
           (filtered aligned clean : DetDataSample)
           (containments_threshold : Q) (visualize : bool) : list (@Event Image) :=
  [CallAlign filtered image; CallRemoveOverlaps aligned containments_threshold]
    ++ (if visualize then [CallVisualize image clean] else [])
    ++ [CallCrop clean image].



(** How many calls of a trace satisfy [p]. *)
Definition calls {Image : Type} (p : @Event Image -> bool) (tr : list (@Event Image))
  : nat :=
  length (filter p tr).

Definition is_binarize_call {Image : Type} (ev : @Event Image) : bool :=
  match ev with CallBinarize _ => true | _ => false end.
Definition is_imread_call {Image : Type} (ev : @Event Image) : bool :=
  match ev with CallImread _ => true | _ => false end.
Definition is_seg_model_call {Image : Type} (ev : @Event Image) : bool :=
  match ev with CallSegModel _ => true | _ => false end.
Definition is_line_model_call {Image : Type} (ev : @Event Image) : bool :=
  match ev with CallLineModel _ => true | _ => false end.
Definition is_filter_call {Image : Type} (ev : @Event Image) : bool :=
  match ev with CallFilter _ _ => true | _ => false end.
Definition is_align_call {Image : Type} (ev : @Event Image) : bool :=
  match ev with CallAlign _ _ => true | _ => false end.
Definition is_resolve_call {Image : Type} (ev : @Event Image) : bool :=
  match ev with CallRemoveOverlaps _ _ => true | _ => false end.
Definition is_visualize_call {Image : Type} (ev : @Event Image) : bool :=
  match ev with CallVisualize _ _ => true | _ => false end.
Definition is_crop_call {Image : Type} (ev : @Event Image) : bool :=
  match ev with CallCrop _ _ => true | _ => false end.
Definition is_order_call {Image : Type} (ev : @Event Image) : bool :=
  match ev with CallOrderRegions _ | CallOrderLines _ _ => true | _ => false end.

(** The subscripts a sequence of [n] elements accepts: [-n <= i < n]. *)
Definition index_in_range (n : nat) (i : Z) : bool :=
  (- Z.of_nat n <=? i)%Z && (i <? Z.of_nat n)%Z.

(* ================================================================== *)
(** ** An inferencer assembled from the helper models *)
(* ================================================================== *)

Module Reference.

Definition Image : Type := SegMaskHelper.Image.
Definition Polygon : Type := SegMaskHelper.Polygon.

(** A segmentation model that answers every image with [preds]. *)
Definition fixed_model (preds : DetDataSample) : SegModel Image :=
  {| seg_call := fun _ => preds;
     visualize_preds := fun image _ => image |}.

Definition binarize (image : Image) : Image :=
  map (map (fun v => if (v <? 128)%Z then 0%Z else 255%Z)) image.

Definition inferencer (region_preds line_preds : DetDataSample)
  : InferencerT Image Polygon :=
  {| seg_model := fixed_model region_preds;
     line_model := fixed_model line_preds;
     htr_model_inferencer := fun _ => ("text"%string, (87654321 # 100000000)%Q);
     process_seg_mask :=
       {| align_masks_with_image := SegMaskHelper.align_masks_with_image;
          crop_masks := SegMaskHelper.crop_masks |};
     postprocess_seg_mask :=
       {| filter_on_pred_threshold := FilterSegMask.filter_on_pred_threshold;
          remove_overlapping_masks := FilterSegMask.remove_overlapping_masks |};
     ordering :=
       {| order_regions_marginalia := fun ds =>
            map Z.of_nat
                (OrderObject.order_regions_marginalia
                   OrderObject.narrow_is_marginalia OrderObject.single_column ds);
          order_lines := fun ds f =>
            map Z.of_nat (OrderObject.order_lines ds f) |};
     preprocess_img := {| binarize_img := binarize |};
     mmcv_imread := fun image => image |}.

(** A 4x4 page and four predicted 3x3 masks: a block in the lower right
    corner, a block in the upper left corner, a single pixel inside that
    block, and a low-confidence block. *)
Definition page : Image :=
  [[10; 20; 200; 210]; [30; 40; 220; 230]; [130; 140; 50; 60]; [150; 160; 70; 80]]%Z.

Definition lower_right : Mask :=
  [[false; false; false]; [false; false; false]; [false; false; true]].
Definition upper_left : Mask :=
  [[true; true; false]; [true; true; false]; [false; false; false]].
Definition inner_pixel : Mask :=
  [[true; false; false]; [false; false; false]; [false; false; false]].
Definition faint : Mask :=
  [[false; false; false]; [false; true; true]; [false; false; false]].

Definition preds : DetDataSample :=
  mkSample [ mkInstance lower_right (7 # 10);
             mkInstance upper_left (9 # 10);
             mkInstance inner_pixel (8 # 10);
             mkInstance faint (2 # 10) ].

Definition faint_preds : DetDataSample :=
  mkSample [ mkInstance faint (2 # 10) ].

(** A [rows] x [cols] mask that is set on the rectangle
    [top..bottom] x [left..right]. *)
Definition rect_mask (rows cols top bottom left right : nat) : Mask :=
  map (fun r =>
         map (fun c => (top <=? r) && (r <=? bottom) && (left <=? c) && (c <=? right))
             (seq 0 cols))
      (seq 0 rows).

(** Three lines of height 10 on a 46 x 8 region, listed bottom line first:
    vertical centres 40.5, 10.5 (right half) and 12.5 (left half). *)
Definition three_lines : DetDataSample :=
  mkSample [ mkInstance (rect_mask 46 8 36 45 0 7) (9 # 10);
             mkInstance (rect_mask 46 8 6 15 4 7) (9 # 10);
             mkInstance (rect_mask 46 8 8 17 0 3) (9 # 10) ].

(** A narrow note above two full-width text blocks on a 12 x 16 page. *)
Definition note_and_blocks : DetDataSample :=
  mkSample [ mkInstance (rect_mask 12 16 0 1 14 15) (9 # 10);
             mkInstance (rect_mask 12 16 8 11 0 11) (9 # 10);
             mkInstance (rect_mask 12 16 3 6 0 12) (9 # 10) ].

(** The region stage on [page] and [preds] at thresholds 0.5, step by step. *)
Definition filtered_preds : DetDataSample :=
  mkSample (FilterSegMask.keep_scored (1 # 2) (pred_instances preds)).
Definition aligned_preds : DetDataSample :=
  SegMaskHelper.align_masks_with_image filtered_preds (binarize page).
Definition clean_preds : DetDataSample :=
  FilterSegMask.remove_overlapping_masks aligned_preds (1 # 2).

End Reference.

(** The assembled inferencer with another ordering object. *)
Module Variants.

Definition with_ordering (o : OrderObjectT)
           (self : InferencerT Reference.Image Reference.Polygon)
  : InferencerT Reference.Image Reference.Polygon :=
  {| seg_model := seg_model self;
     line_model := line_model self;
     htr_model_inferencer := htr_model_inferencer self;
     process_seg_mask := process_seg_mask self;
     postprocess_seg_mask := postprocess_seg_mask self;
     ordering := o;
     preprocess_img := preprocess_img self;
     mmcv_imread := mmcv_imread self |}.



(** An ordering that answers with the same index list whatever it is given. *)
Definition fixed_order (order : list Z) : OrderObjectT :=
  {| order_regions_marginalia := fun _ => order;
     order_lines := fun _ _ => order |}.

End Variants.

(* ================================================================== *)
(** * Properties *)
(* ================================================================== *)

(** ** Subscripts and comprehensions *)

Lemma py_index_map {A B : Type} (f : A -> B) (l : list A) (i : Z) :
  py_index (map f l) i = option_map f (py_index l i).
Proof.
  unfold py_index. rewrite length_map.
  destruct (0 <=? i)%Z; [apply nth_error_map|].
  destruct (- Z.of_nat (length l) <=? i)%Z; [apply nth_error_map|reflexivity].
Qed.

Lemma py_index_of_nat {A : Type} (l : list A) (k : nat) :
  py_index l (Z.of_nat k) = nth_error l k.
Proof.
  unfold py_index.
  destruct (Z.leb_spec 0 (Z.of_nat k)); [|lia].
  now rewrite Nat2Z.id.
Qed.

Lemma py_select_length {A : Type} (l : list A) (order : list Z) (xs : list A) :
  py_select l order = Ok xs -> length xs = length order.
Proof.
  revert xs. induction order as [|z order IH]; intros xs H; simpl in H.
  - now inversion H.
  - destruct (py_index l z); [|discriminate].
    destruct (py_select l order) as [ys|]; [|discriminate].
    inversion H; subst. simpl. f_equal. now apply IH.
Qed.

(** Position [i] of a comprehension holds the element the [i]-th index
    selects. *)
Lemma py_select_nth {A : Type} (l : list A) (order : list Z) (xs : list A) :
  py_select l order = Ok xs ->
  forall i z, nth_error order i = Some z ->
              exists x, nth_error xs i = Some x /\ py_index l z = Some x.
Proof.
  revert xs. induction order as [|z0 order IH]; intros xs H i z Hi; simpl in H.
  - destruct i; discriminate.
  - destruct (py_index l z0) as [x0|] eqn:E0; [|discriminate].
    destruct (py_select l order) as [ys|]; [|discriminate].
    inversion H; subst. destruct i as [|i]; simpl in Hi.
    + inversion Hi; subst. exists x0. now split.
    + destruct (IH ys eq_refl i z Hi) as [x [Hx Hz]]. exists x. now split.
Qed.

Lemma py_select_of_nat {A : Type} (l : list A) (order : list nat) (d : A) :
  Forall (fun k => k < length l) order ->
  py_select l (map Z.of_nat order) = Ok (map (fun k => nth k l d) order).
Proof.
  induction 1 as [|k order Hk _ IH]; simpl; [reflexivity|].
  rewrite py_index_of_nat, (nth_error_nth' l d Hk), IH. reflexivity.
Qed.

Lemma py_select_raises {A : Type} (l : list A) (order : list Z) (e : PyError) :
  py_select l order = Raise e -> e = IndexError.
Proof.
  induction order as [|z order IH]; simpl; [discriminate|].
  destruct (py_index l z); [|now inversion 1].
  destruct (py_select l order); [discriminate|].
  intros H. inversion H; subst. now apply IH.
Qed.

Lemma py_index_In {A : Type} (l : list A) (i : Z) (x : A) :
  py_index l i = Some x -> In x l.
Proof.
  unfold py_index.
  destruct (0 <=? i)%Z; [apply nth_error_In|].
  destruct (- Z.of_nat (length l) <=? i)%Z; [apply nth_error_In|discriminate].
Qed.

(** ** FilterSegMask: score filter *)

Module FilterSegMaskFacts.
Import FilterSegMask.

Lemma keep_scored_filter (t : Q) (l : list Instance) :
  keep_scored t l = filter (fun i => Qle_bool t (score i)) l.
Proof.
  induction l as [|i l IH]; simpl; [reflexivity|].
  now destruct (Qle_bool t (score i)); rewrite IH.
Qed.

Lemma keep_scored_stable (t : Q) (l : list Instance) :
  stable_sub (keep_scored t l) l.
Proof.
  induction l as [|i l IH]; simpl; [constructor|].
  destruct (Qle_bool t (score i)); now constructor.
Qed.

Lemma keep_scored_In (t : Q) (l : list Instance) (i : Instance) :
  In i (keep_scored t l) <-> In i l /\ (t <= score i)%Q.
Proof.
  rewrite keep_scored_filter, filter_In, Qle_bool_iff. reflexivity.
Qed.

(** Raising the threshold on an already filtered list gives what the higher
    threshold gives on the original list. *)
Lemma keep_scored_raise (t1 t2 : Q) (l : list Instance) :
  (t1 <= t2)%Q ->
  keep_scored t2 (keep_scored t1 l) = keep_scored t2 l.
Proof.
  intros Hle. induction l as [|i l IH]; simpl; [reflexivity|].
  destruct (Qle_bool t1 (score i)) eqn:E1; simpl.
  - now rewrite IH.
  - destruct (Qle_bool t2 (score i)) eqn:E2; [|exact IH].
    apply Qle_bool_iff in E2.
    assert (Qle_bool t1 (score i) = true) as E
        by (apply Qle_bool_iff; eapply Qle_trans; eassumption).
    congruence.
Qed.

Lemma stable_sub_length {A : Type} (l1 l2 : list A) :
  stable_sub l1 l2 -> length l1 <= length l2.
Proof. induction 1; simpl; lia. Qed.

Lemma valid_threshold_iff (t : Q) :
  valid_threshold t = true <-> (0 <= t)%Q /\ (t <= 1)%Q.
Proof.
  unfold valid_threshold. rewrite andb_true_iff, !Qle_bool_iff. reflexivity.
Qed.

Lemma filter_empty (t : Q) :
  valid_threshold t = true ->
  filter_on_pred_threshold (mkSample []) t = Ok (mkSample []).
Proof. unfold filter_on_pred_threshold. now intros ->. Qed.

(** C8. For thresholds [0 <= t1 <= t2 <= 1] the filter succeeds at both, the
    output at [t2] is no longer than the output at [t1] (it is a
    subsequence of it), and each output is exactly the instances with
    [score >= threshold], in their original order. *)
Theorem filter_monotone_stable (ds : DetDataSample) (t1 t2 : Q) :
  (0 <= t1)%Q -> (t1 <= t2)%Q -> (t2 <= 1)%Q ->
  exists out1 out2,
    filter_on_pred_threshold ds t1 = Ok out1 /\
    filter_on_pred_threshold ds t2 = Ok out2 /\
    length (pred_instances out2) <= length (pred_instances out1) /\
    stable_sub (pred_instances out2) (pred_instances out1) /\
    pred_instances out1
      = filter (fun i => Qle_bool t1 (score i)) (pred_instances ds) /\
    pred_instances out2
      = filter (fun i => Qle_bool t2 (score i)) (pred_instances ds) /\
    stable_sub (pred_instances out1) (pred_instances ds) /\
    stable_sub (pred_instances out2) (pred_instances ds) /\
    (forall i, In i (pred_instances out1)
               <-> In i (pred_instances ds) /\ (t1 <= score i)%Q) /\
    (forall i, In i (pred_instances out2)
               <-> In i (pred_instances ds) /\ (t2 <= score i)%Q).
Proof.
  intros H0 H12 H1.
  assert (valid_threshold t1 = true) as V1.
  { apply valid_threshold_iff. split; [assumption|]. eapply Qle_trans; eassumption. }
  assert (valid_threshold t2 = true) as V2.
  { apply valid_threshold_iff. split; [|assumption]. eapply Qle_trans; eassumption. }
  unfold filter_on_pred_threshold. rewrite V1, V2.
  eexists; eexists. split; [reflexivity|]. split; [reflexivity|]. simpl.
  assert (stable_sub (keep_scored t2 (pred_instances ds))
                     (keep_scored t1 (pred_instances ds))) as Hsub.
  { rewrite <- (keep_scored_raise t1 t2) by assumption. apply keep_scored_stable. }
  repeat apply conj;
    auto using keep_scored_filter, keep_scored_stable, keep_scored_In.
  now apply stable_sub_length.
Qed.

Lemma filter_monotone_stable_witness :
  exists out1 out2,
    filter_on_pred_threshold Reference.preds (1 # 2) = Ok out1 /\
    filter_on_pred_threshold Reference.preds (4 # 5) = Ok out2 /\
    length (pred_instances out1) = 3 /\ length (pred_instances out2) = 2.
Proof.
  destruct (filter_monotone_stable Reference.preds (1 # 2) (4 # 5))
    as [out1 [out2 [E1 [E2 _]]]]; try (unfold Qle; simpl; lia).
  exists out1, out2. repeat split; try assumption.
  - vm_compute in E1. inversion E1. reflexivity.
  - vm_compute in E2. inversion E2. reflexivity.
Defined.

End FilterSegMaskFacts.

(** ** FilterSegMask: overlap resolution *)

Module OverlapFacts.
Import FilterSegMask.

Lemma in_ordered_pairs (n i j : nat) :
  In (i, j) (ordered_pairs n) <-> i < n /\ j < n /\ i <> j.
Proof.
  unfold ordered_pairs. rewrite filter_In, in_prod_iff, !in_seq. simpl.
  rewrite negb_true_iff, Nat.eqb_neq. lia.
Qed.

Lemma remove_at_length {A : Type} (k : nat) (l : list A) :
  k < length l -> S (length (remove_at k l)) = length l.
Proof.
  revert k. induction l as [|x l IH]; intros k Hk; simpl in Hk; [lia|].
  destruct k as [|k]; simpl; [reflexivity|].
  f_equal. apply IH. lia.
Qed.

Lemma stable_sub_refl {A : Type} (l : list A) : stable_sub l l.
Proof. induction l; constructor; assumption. Qed.

Lemma stable_sub_trans {A : Type} (l1 l2 l3 : list A) :
  stable_sub l1 l2 -> stable_sub l2 l3 -> stable_sub l1 l3.
Proof.
  intros H12 H23. revert l1 H12.
  induction H23 as [|x l2 l3 _ IH|x l2 l3 _ IH]; intros l1 H12.
  - assumption.
  - inversion H12; subst; constructor; auto.
  - constructor. auto.
Qed.

Lemma remove_at_stable {A : Type} (k : nat) (l : list A) :
  stable_sub (remove_at k l) l.
Proof.
  revert k. induction l as [|x l IH]; intros k; destruct k; simpl;
    try constructor; auto using stable_sub_refl.
Qed.

Lemma loser_cases (t : Q) (i j : nat) (a b : Instance) :
  loser t i j a b = i \/ loser t i j a b = j.
Proof.
  unfold loser.
  repeat match goal with |- context [if ?c then _ else _] => destruct c end;
    auto; lia.
Qed.

(** A round that removes something removes exactly one instance, and only
    from a list of at least two. *)
Lemma resolve_step_Some (t : Q) (l l' : list Instance) :
  resolve_step t l = Some l' ->
  S (length l') = length l /\ 2 <= length l /\ stable_sub l' l.
Proof.
  unfold resolve_step.
  destruct (find (absorbed_at t l) (ordered_pairs (length l))) as [[i j]|] eqn:F;
    [|discriminate].
  apply find_some in F. destruct F as [Hin _].
  apply in_ordered_pairs in Hin. destruct Hin as [Hi [Hj Hij]].
  destruct (nth_error l i) as [a|]; [|discriminate].
  destruct (nth_error l j) as [b|]; [|discriminate].
  intros H. inversion H; subst. clear H.
  assert (loser t i j a b < length l) as Hk
      by (destruct (loser_cases t i j a b) as [-> | ->]; assumption).
  split; [now apply remove_at_length|]. split; [lia|apply remove_at_stable].
Qed.

(** A round that removes nothing has found no absorbed pair. *)
Lemma resolve_step_None (t : Q) (l : list Instance) :
  resolve_step t l = None ->
  forall i j a b, i <> j -> nth_error l i = Some a -> nth_error l j = Some b ->
                  absorbed t a b = false.
Proof.
  unfold resolve_step. intros H i j a b Hij Ha Hb.
  destruct (find (absorbed_at t l) (ordered_pairs (length l))) as [[i' j']|] eqn:F.
  - apply find_some in F. destruct F as [_ Habs].
    unfold absorbed_at in Habs. simpl in Habs.
    destruct (nth_error l i'); [|discriminate].
    destruct (nth_error l j'); discriminate.
  - assert (In (i, j) (ordered_pairs (length l))) as Hin.
    { apply in_ordered_pairs.
      split; [apply nth_error_Some; congruence|].
      split; [apply nth_error_Some; congruence|assumption]. }
    pose proof (find_none _ _ F _ Hin) as Hn.
    unfold absorbed_at in Hn. simpl in Hn. now rewrite Ha, Hb in Hn.
Qed.

Lemma resolve_step_converse (t : Q) (l : list Instance) :
  (forall i j a b, i <> j -> nth_error l i = Some a -> nth_error l j = Some b ->
                   absorbed t a b = false) ->
  resolve_step t l = None.
Proof.
  intros H. unfold resolve_step.
  destruct (find (absorbed_at t l) (ordered_pairs (length l))) as [[i j]|] eqn:F;
    [|reflexivity].
  apply find_some in F. destruct F as [Hin Habs].
  apply in_ordered_pairs in Hin. destruct Hin as [_ [_ Hij]].
  unfold absorbed_at in Habs. simpl in Habs.
  destruct (nth_error l i) as [a|] eqn:Ea; [|discriminate].
  destruct (nth_error l j) as [b|] eqn:Eb; [|discriminate].
  rewrite (H i j a b Hij Ea Eb) in Habs. discriminate.
Qed.

(** The rounds end within the fuel [remove_overlapping_masks] grants. *)
Lemma resolve_loop_settles (fuel : nat) (t : Q) (l : list Instance) :
  length l <= fuel ->
  resolve_step t (resolve_loop fuel t l) = None.
Proof.
  revert l. induction fuel as [|fuel IH]; intros l Hlen; simpl.
  - destruct l; [reflexivity|simpl in Hlen; lia].
  - destruct (resolve_step t l) as [l'|] eqn:E; [|exact E].
    apply IH. apply resolve_step_Some in E. lia.
Qed.

Lemma resolve_loop_settled (fuel : nat) (t : Q) (l : list Instance) :
  resolve_step t l = None -> resolve_loop fuel t l = l.
Proof. intros H. destruct fuel; simpl; [reflexivity|now rewrite H]. Qed.

Lemma resolve_loop_nonempty (fuel : nat) (t : Q) (l : list Instance) :
  l <> [] -> resolve_loop fuel t l <> [].
Proof.
  revert l. induction fuel as [|fuel IH]; intros l Hl; simpl; [assumption|].
  destruct (resolve_step t l) as [l'|] eqn:E; [|assumption].
  apply IH. apply resolve_step_Some in E. destruct l'; simpl in E; [lia|discriminate].
Qed.

Lemma resolve_loop_stable (fuel : nat) (t : Q) (l : list Instance) :
  stable_sub (resolve_loop fuel t l) l.
Proof.
  revert l. induction fuel as [|fuel IH]; intros l; simpl;
    [apply stable_sub_refl|].
  destruct (resolve_step t l) as [l'|] eqn:E; [|apply stable_sub_refl].
  apply resolve_step_Some in E. destruct E as [_ [_ Hsub]].
  eapply stable_sub_trans; [apply IH|exact Hsub].
Qed.

Lemma remove_overlapping_masks_empty (t : Q) :
  remove_overlapping_masks (mkSample []) t = mkSample [].
Proof. reflexivity. Qed.

Lemma remove_overlapping_masks_stable (ds : DetDataSample) (t : Q) :
  stable_sub (pred_instances (remove_overlapping_masks ds t)) (pred_instances ds).
Proof. apply resolve_loop_stable. Qed.

(** Emptiness goes through overlap resolution unchanged. *)
Lemma remove_overlapping_masks_empty_iff (ds : DetDataSample) (t : Q) :
  masks (remove_overlapping_masks ds t) = [] <-> masks ds = [].
Proof.
  unfold masks, remove_overlapping_masks. simpl. split; intros H.
  - apply map_eq_nil in H.
    destruct (pred_instances ds) as [|i l] eqn:E; [reflexivity|].
    exfalso. revert H. apply resolve_loop_nonempty. discriminate.
  - apply map_eq_nil in H. rewrite H. reflexivity.
Qed.

Lemma absorbed_false (t : Q) (a b : Instance) :
  absorbed t a b = false -> (containment_ratio (mask a) (mask b) < t)%Q.
Proof.
  unfold absorbed. intros H. apply Qnot_le_lt. intros Hle.
  apply Qle_bool_iff in Hle. congruence.
Qed.

(** C6. In the output of [remove_overlapping_masks], any two survivors at
    distinct positions have containment ratios below the threshold in both
    directions. *)
Theorem containment_invariant (ds : DetDataSample) (t : Q)
        (i j : nat) (a b : Mask) :
  i <> j ->
  nth_error (masks (remove_overlapping_masks ds t)) i = Some a ->
  nth_error (masks (remove_overlapping_masks ds t)) j = Some b ->
  (containment_ratio a b < t)%Q /\ (containment_ratio b a < t)%Q.
Proof.
  intros Hij Ha Hb. unfold masks in Ha, Hb.
  rewrite nth_error_map in Ha, Hb.
  destruct (nth_error (pred_instances (remove_overlapping_masks ds t)) i)
    as [ia|] eqn:Ea; [|discriminate].
  destruct (nth_error (pred_instances (remove_overlapping_masks ds t)) j)
    as [ib|] eqn:Eb; [|discriminate].
  simpl in Ha, Hb. inversion Ha; inversion Hb; subst. clear Ha Hb.
  unfold remove_overlapping_masks in Ea, Eb. simpl in Ea, Eb.
  pose proof (resolve_loop_settles (length (pred_instances ds)) t
                                   (pred_instances ds) (le_n _)) as Hnone.
  split; apply absorbed_false.
  - exact (resolve_step_None _ _ Hnone i j ia ib Hij Ea Eb).
  - exact (resolve_step_None _ _ Hnone j i ib ia (not_eq_sym Hij) Eb Ea).
Qed.

(** C7. Resolving the output of [remove_overlapping_masks] again, with the
    same threshold, changes nothing. *)
Theorem remove_overlapping_masks_idempotent (ds : DetDataSample) (t : Q) :
  remove_overlapping_masks (remove_overlapping_masks ds t) t
  = remove_overlapping_masks ds t.
Proof.
  unfold remove_overlapping_masks. simpl. f_equal.
  apply resolve_loop_settled. apply resolve_loop_settles. apply le_n.
Qed.

End OverlapFacts.

(** ** OrderObject: reading orders are permutations *)

Module OrderFacts.
Import OrderObject.











Lemma seq_reindex {A : Type} (xs : list A) (d : A) :
  map (fun k => nth k xs d) (seq 0 (length xs)) = xs.
Proof.
  induction xs as [|x xs IH]; simpl; [reflexivity|].
  f_equal. rewrite <- seq_shift, map_map. exact IH.
Qed.

(** What follows from being a rearrangement of [0 .. n-1]. *)
Lemma index_permutation_facts (n : nat) (order : list nat) :
  Permutation order (seq 0 n) ->
  length order = n /\
  NoDup order /\
  (forall k, In k order <-> k < n) /\
  (forall k, k < n -> count_occ Nat.eq_dec order k = 1) /\
  (forall (A : Type) (xs : list A) (d : A),
      length xs = n -> Permutation (map (fun k => nth k xs d) order) xs).
Proof.
  intros HP. repeat apply conj.
  - rewrite (Permutation_length HP). apply length_seq.
  - apply (Permutation_NoDup (Permutation_sym HP)), seq_NoDup.
  - intros k. split; intros H.
    + apply (Permutation_in _ HP), in_seq in H. lia.
    + apply (Permutation_in _ (Permutation_sym HP)), in_seq. lia.
  - intros k Hk. rewrite (Permutation_count_occ Nat.eq_dec) in HP. rewrite HP.
    pose proof (seq_NoDup n 0) as ND.
    rewrite (NoDup_count_occ Nat.eq_dec) in ND.
    assert (In k (seq 0 n)) as Hin by (apply in_seq; lia).
    apply (count_occ_In Nat.eq_dec) in Hin. specialize (ND k). lia.
  - intros A xs d Hlen. subst n.
    rewrite (Permutation_map (fun k => nth k xs d) HP).
    now rewrite seq_reindex.
Qed.

(** The comprehension [[xs[i] for i in order]] over a rearrangement of the
    positions of [xs] succeeds and rearranges [xs]. *)
Lemma py_select_rearranges {A : Type} (xs : list A) (order : list nat) :
  Permutation order (seq 0 (length xs)) ->
  exists ys, py_select xs (map Z.of_nat order) = Ok ys /\ Permutation ys xs.
Proof.
  intros HP. destruct xs as [|d xs'].
  - apply Permutation_sym, Permutation_nil in HP. subst order.
    exists []. split; [reflexivity|constructor].
  - destruct (index_permutation_facts _ _ HP) as [_ [_ [Hin [_ Hre]]]].
    exists (map (fun k => nth k (d :: xs') d) order). split.
    + apply py_select_of_nat. apply Forall_forall. intros k Hk. now apply Hin.
    + now apply Hre.
Qed.


End OrderFacts.

(** ** The two segmentation stages of [Inferencer] *)

Section StageFacts.

Variables Image Polygon : Type.
Variable self : InferencerT Image Polygon.

Lemma masks_empty_length (ds : DetDataSample) :
  (length (masks ds) =? 0) = true <-> masks ds = [].
Proof. rewrite Nat.eqb_eq. apply length_zero_iff_nil. Qed.

Lemma masks_nonempty_length (ds : DetDataSample) :
  masks ds <> [] -> (length (masks ds) =? 0) = false.
Proof.
  intros H. apply Nat.eqb_neq. intros E. apply H, length_zero_iff_nil, E.
Qed.

(** *** [predict_regions], branch by branch *)

Lemma predict_regions_filter_raises input_image t ct visualize e :
  filter_on_pred_threshold (postprocess_seg_mask self)
    (seg_call (seg_model self) (read_page self input_image)) t = Raise e ->
  predict_regions self input_image t ct visualize
  = (region_prefix self input_image t, Raise e).
Proof.
  unfold read_page. intros H.
  unfold predict_regions, bind, call, try_call. rewrite H. reflexivity.
Qed.

Lemma predict_regions_nothing_left input_image t ct visualize filtered :
  filter_on_pred_threshold (postprocess_seg_mask self)
    (seg_call (seg_model self) (read_page self input_image)) t = Ok filtered ->
  masks filtered = [] ->
  predict_regions self input_image t ct visualize
  = (region_prefix self input_image t, Raise NoRegionsDetected).
Proof.
  unfold read_page. intros H Hempty.
  unfold predict_regions, bind, call, try_call. rewrite H.
  apply masks_empty_length in Hempty. rewrite Hempty. reflexivity.
Qed.

Lemma predict_regions_proceeds input_image t ct visualize filtered :
  filter_on_pred_threshold (postprocess_seg_mask self)
    (seg_call (seg_model self) (read_page self input_image)) t = Ok filtered ->
  masks filtered <> [] ->
  let image := read_page self input_image in
  let aligned := align_masks_with_image (process_seg_mask self) filtered image in
  let clean := remove_overlapping_masks (postprocess_seg_mask self) aligned ct in
  let cropped := crop_masks (process_seg_mask self) clean image in
  let order := order_regions_marginalia (ordering self) clean in
  predict_regions self input_image t ct visualize
  = (region_prefix self input_image t
       ++ stage_calls image filtered aligned clean ct visualize
       ++ [CallOrderRegions clean],
     match py_select (fst cropped) order with
     | Raise e => Raise e
     | Ok crops =>
         match py_select (snd cropped) order with
         | Raise e => Raise e
         | Ok polygons =>
             match py_select (masks clean) order with
             | Raise e => Raise e
             | Ok ms =>
                 Ok (if visualize
                     then Some (visualize_preds (seg_model self) image clean)
                     else None,
                     crops, polygons, ms)
             end
         end
     end).
Proof.
  unfold read_page. intros H Hne. simpl.
  unfold predict_regions, bind, call, try_call, lift, ret, stage_calls, region_prefix,
    read_page.
  rewrite H. rewrite (masks_nonempty_length _ Hne).
  destruct visualize; simpl;
    repeat match goal with
           | |- context [py_select ?l ?o] => destruct (py_select l o); simpl
           end; reflexivity.
Qed.

(** *** [predict_lines], branch by branch *)

Lemma predict_lines_filter_raises image t ct f visualize custom_track e :
  filter_on_pred_threshold (postprocess_seg_mask self)
    (seg_call (line_model self) image) t = Raise e ->
  predict_lines self image t ct f visualize custom_track
  = (line_prefix self image t, Raise e).
Proof.
  intros H. unfold predict_lines, bind, call, try_call. rewrite H. reflexivity.
Qed.

Lemma predict_lines_nothing_left image t ct f visualize custom_track filtered :
  filter_on_pred_threshold (postprocess_seg_mask self)
    (seg_call (line_model self) image) t = Ok filtered ->
  masks filtered = [] ->
  predict_lines self image t ct f visualize custom_track
  = (line_prefix self image t,
     if custom_track then Raise NoLinesDetected else Ok (None, None, None)).
Proof.
  intros H Hempty. unfold predict_lines, bind, call, try_call. rewrite H.
  apply masks_empty_length in Hempty. rewrite Hempty.
  destruct custom_track; reflexivity.
Qed.

Lemma predict_lines_proceeds image t ct f visualize custom_track filtered :
  filter_on_pred_threshold (postprocess_seg_mask self)
    (seg_call (line_model self) image) t = Ok filtered ->
  masks filtered <> [] ->
  let aligned := align_masks_with_image (process_seg_mask self) filtered image in
  let clean := remove_overlapping_masks (postprocess_seg_mask self) aligned ct in
  let cropped := crop_masks (process_seg_mask self) clean image in
  let order := order_lines (ordering self) clean f in
  predict_lines self image t ct f visualize custom_track
  = (line_prefix self image t
       ++ stage_calls image filtered aligned clean ct visualize
       ++ [CallOrderLines clean f],
     match py_select (fst cropped) order with
     | Raise e => Raise e
     | Ok crops =>
         match py_select (snd cropped) order with
         | Raise e => Raise e
         | Ok polygons =>
             Ok (if visualize
                 then Some (visualize_preds (seg_model self) image clean)
                 else None,
                 Some crops, Some polygons)
         end
     end).
Proof.
  intros H Hne. simpl.
  unfold predict_lines, bind, call, try_call, lift, ret, stage_calls, line_prefix.
  rewrite H. rewrite (masks_nonempty_length _ Hne). simpl.
  destruct visualize; simpl;
    repeat match goal with
           | |- context [py_select ?l ?o] => destruct (py_select l o); simpl
           end; reflexivity.
Qed.

(** *** Claims about the stages *)

(** C1 (amended). When the score filter leaves no line instance,
    [predict_lines] makes no further call; with [custom_track] (strict mode) it
    raises the error "No Lines were predicted by the model", without it the
    call returns the triple [(None, None, None)]: no visualisation, and [None]
    in place of the crop and polygon sequences. *)
Theorem predict_lines_without_lines image t ct f visualize filtered :
  filter_on_pred_threshold (postprocess_seg_mask self)
    (seg_call (line_model self) image) t = Ok filtered ->
  masks filtered = [] ->
  predict_lines self image t ct f visualize true
  = (line_prefix self image t, Raise NoLinesDetected) /\
  predict_lines self image t ct f visualize false
  = (line_prefix self image t, Ok (None, None, None)).
Proof.
  intros H Hempty.
  split; now rewrite (predict_lines_nothing_left _ _ _ _ _ _ _ H Hempty).
Qed.





(** C4 (amended). In each stage, on its own, once the filter has left
    something the calls are made in this order: the aligner on the filtered
    instances, the overlap resolver on the aligned instances, the visualiser if
    asked, the cropper on the resolver's output, and the ordering on that same
    output. *)
Theorem stage_order :
  (forall input_image t ct visualize filtered,
      filter_on_pred_threshold (postprocess_seg_mask self)
        (seg_call (seg_model self) (read_page self input_image)) t = Ok filtered ->
      masks filtered <> [] ->
      let page := read_page self input_image in
      let aligned := align_masks_with_image (process_seg_mask self) filtered page in
      let clean := remove_overlapping_masks (postprocess_seg_mask self) aligned ct in
      let run := predict_regions self input_image t ct visualize in
      trace run
      = region_prefix self input_image t
          ++ stage_calls page filtered aligned clean ct visualize
          ++ [CallOrderRegions clean] /\
      aligner_inputs (trace run) = [filtered] /\
      resolver_inputs (trace run) = [aligned]) /\
  (forall image t ct f visualize custom_track filtered,
      filter_on_pred_threshold (postprocess_seg_mask self)
        (seg_call (line_model self) image) t = Ok filtered ->
      masks filtered <> [] ->
      let aligned := align_masks_with_image (process_seg_mask self) filtered image in
      let clean := remove_overlapping_masks (postprocess_seg_mask self) aligned ct in
      let run := predict_lines self image t ct f visualize custom_track in
      trace run
      = line_prefix self image t
          ++ stage_calls image filtered aligned clean ct visualize
          ++ [CallOrderLines clean f] /\
      aligner_inputs (trace run) = [filtered] /\
      resolver_inputs (trace run) = [aligned]).
Proof.
  split.
  - intros input_image t ct visualize filtered F Hne page aligned clean run.
    unfold run. rewrite (predict_regions_proceeds _ _ _ _ _ F Hne).
    simpl. repeat apply conj; try reflexivity; destruct visualize; reflexivity.
  - intros image t ct f visualize custom_track filtered F Hne aligned clean run.
    unfold run. rewrite (predict_lines_proceeds _ _ _ _ _ _ _ F Hne).
    simpl. repeat apply conj; try reflexivity; destruct visualize; reflexivity.
Qed.

(** C9. In a successful [predict_regions] call the three returned sequences
    are as long as the reading order and are read off at the same indices:
    position [i] of the crops, of the polygons and of the masks holds the
    element that the [i]-th index of the order selects from the cropper's
    crops, the cropper's polygons and the masks of the cleaned set. When the
    cropper's output is aligned with the cleaned set, the three come from one
    instance of that set. *)
Theorem ordered_outputs_paired input_image t ct visualize viz crops polygons ms :
  outcome (predict_regions self input_image t ct visualize)
  = Ok (viz, crops, polygons, ms) ->
  exists clean : DetDataSample,
    let image := read_page self input_image in
    let cropped := crop_masks (process_seg_mask self) clean image in
    let order := order_regions_marginalia (ordering self) clean in
    In (CallCrop clean image) (trace (predict_regions self input_image t ct visualize)) /\
    In (CallOrderRegions clean)
       (trace (predict_regions self input_image t ct visualize)) /\
    length crops = length order /\
    length polygons = length order /\
    length ms = length order /\
    (forall i z, nth_error order i = Some z ->
       exists c p m,
         nth_error crops i = Some c /\ py_index (fst cropped) z = Some c /\
         nth_error polygons i = Some p /\ py_index (snd cropped) z = Some p /\
         nth_error ms i = Some m /\ py_index (masks clean) z = Some m) /\
    (forall (crop_one : Instance -> Image) (polygon_one : Instance -> Polygon),
        cropped = (map crop_one (pred_instances clean),
                   map polygon_one (pred_instances clean)) ->
        forall i, i < length order ->
          exists inst,
            In inst (pred_instances clean) /\
            nth_error crops i = Some (crop_one inst) /\
            nth_error polygons i = Some (polygon_one inst) /\
            nth_error ms i = Some (mask inst)).
Proof.
  intros H.
  destruct (filter_on_pred_threshold (postprocess_seg_mask self)
              (seg_call (seg_model self) (read_page self input_image)) t)
    as [filtered|e] eqn:F;
    [|rewrite (predict_regions_filter_raises _ _ _ _ _ F) in H; discriminate].
  destruct (masks filtered) as [|m0 ms0] eqn:E;
    [rewrite (predict_regions_nothing_left _ _ _ _ _ F E) in H; discriminate|].
  assert (masks filtered <> []) as Hne by (rewrite E; discriminate).
  rewrite (predict_regions_proceeds _ _ _ _ _ F Hne) in *.
  cbv zeta in *. unfold outcome in H. unfold trace. cbn [fst snd] in *.
  set (image := read_page self input_image) in *.
  set (clean := remove_overlapping_masks (postprocess_seg_mask self)
                  (align_masks_with_image (process_seg_mask self) filtered image) ct) in *.
  set (order := order_regions_marginalia (ordering self) clean) in *.
  set (cropped := crop_masks (process_seg_mask self) clean image) in *.
  destruct (py_select (fst cropped) order) as [cs|] eqn:Pc; [|discriminate].
  destruct (py_select (snd cropped) order) as [ps|] eqn:Pp; [|discriminate].
  destruct (py_select (masks clean) order) as [qs|] eqn:Pm; [|discriminate].
  inversion H; subst cs ps qs. clear H.
  assert (forall i z, nth_error order i = Some z ->
            exists c p m,
              nth_error crops i = Some c /\ py_index (fst cropped) z = Some c /\
              nth_error polygons i = Some p /\ py_index (snd cropped) z = Some p /\
              nth_error ms i = Some m /\ py_index (masks clean) z = Some m) as Hpos.
  { intros i z Hi.
    destruct (py_select_nth _ _ _ Pc i z Hi) as [c [Hc1 Hc2]].
    destruct (py_select_nth _ _ _ Pp i z Hi) as [p [Hp1 Hp2]].
    destruct (py_select_nth _ _ _ Pm i z Hi) as [m [Hm1 Hm2]].
    exists c, p, m. repeat apply conj; assumption. }
  exists clean. repeat apply conj.
  - apply in_or_app. right. apply in_or_app. left.
    unfold stage_calls. destruct visualize; simpl; auto.
  - apply in_or_app. right. apply in_or_app. right. simpl. auto.
  - eapply py_select_length; eassumption.
  - eapply py_select_length; eassumption.
  - eapply py_select_length; eassumption.
  - exact Hpos.
  - intros crop_one polygon_one Hal i Hi.
    destruct (nth_error order i) as [z|] eqn:Ez;
      [|apply nth_error_None in Ez; change (i < length order) in Hi; lia].
    destruct (Hpos i z Ez) as [c [p [m [Hc1 [Hc2 [Hp1 [Hp2 [Hm1 Hm2]]]]]]]].
    change (cropped = (map crop_one (pred_instances clean),
                       map polygon_one (pred_instances clean))) in Hal.
    rewrite Hal in Hc2, Hp2. simpl in Hc2, Hp2. unfold masks in Hm2.
    rewrite py_index_map in Hc2. rewrite py_index_map in Hp2.
    rewrite py_index_map in Hm2.
    destruct (py_index (pred_instances clean) z) as [inst|] eqn:Ei; [|discriminate].
    simpl in Hc2, Hp2, Hm2. inversion Hc2; inversion Hp2; inversion Hm2; subst.
    exists inst. repeat apply conj; try assumption.
    eapply py_index_In; eassumption.
Qed.

End StageFacts.

(** ** The stages on the assembled inferencer *)

Module ReferenceFacts.
Import Reference.

Lemma align_masks_empty_iff (ds : DetDataSample) (image : Image) :
  masks (SegMaskHelper.align_masks_with_image ds image) = [] <-> masks ds = [].
Proof.
  unfold masks, SegMaskHelper.align_masks_with_image. simpl.
  destruct (pred_instances ds); simpl; split; intros H; try reflexivity; discriminate.
Qed.

(** What the sample run does, stage by stage. *)
Example sample_filtered :
  FilterSegMask.filter_on_pred_threshold preds (1 # 2) = Ok filtered_preds.
Proof. reflexivity. Qed.

Example sample_clean :
  masks clean_preds
  = [SegMaskHelper.align_mask page lower_right; SegMaskHelper.align_mask page upper_left].
Proof. reflexivity. Qed.

Example sample_regions :
  outcome (predict_regions (inferencer preds preds) page (1 # 2) (1 # 2) false)
  = Ok (None,
        [[[0; 0]; [0; 0]]; [[0]]]%Z,
        [[(0, 0); (1, 0); (1, 1); (0, 1)]; [(2, 2); (2, 2); (2, 2); (2, 2)]],
        [SegMaskHelper.align_mask page upper_left;
         SegMaskHelper.align_mask page lower_right]).
Proof. reflexivity. Qed.

(** Line mode: the lines at 10.5 and 12.5 share a band (distance 2 below
    0.5 x 10) and are read left to right, the line at 40.5 comes last. *)
Example sample_line_order :
  OrderObject.order_lines three_lines (1 # 2) = [2; 1; 0].
Proof. reflexivity. Qed.

(** Region mode: the two text blocks top to bottom, the note after them
    although it is the topmost region. *)
Example sample_region_order :
  OrderObject.order_regions_marginalia
    OrderObject.narrow_is_marginalia OrderObject.single_column note_and_blocks
  = [2; 1; 0].
Proof. reflexivity. Qed.

Example sample_transcribe :
  transcribe (inferencer preds preds) page = ("text"%string, (8765 # 10000)%Q).
Proof. reflexivity. Qed.

(** C1, as stated, fails: in lenient mode a line stage that keeps nothing
    returns [None] for the crops and the polygons, not a sequence. *)
Lemma lenient_empty_line_stage_returns_none :
  let run := predict_lines (inferencer preds faint_preds) page
                           (1 # 2) (1 # 2) (1 # 2) true false in
  FilterSegMask.filter_on_pred_threshold faint_preds (1 # 2) = Ok (mkSample []) /\
  outcome run = Ok (None, None, None) /\
  ~ (exists viz crops polygons, outcome run = Ok (viz, Some crops, Some polygons)).
Proof.
  split; [reflexivity|]. split; [reflexivity|].
  intros [viz [crops [polygons H]]]. vm_compute in H. discriminate.
Qed.

Lemma predict_lines_without_lines_witness :
  predict_lines (inferencer preds faint_preds) page (1 # 2) (1 # 2) (1 # 2) true true
  = (line_prefix (inferencer preds faint_preds) page (1 # 2), Raise NoLinesDetected) /\
  predict_lines (inferencer preds faint_preds) page (1 # 2) (1 # 2) (1 # 2) true false
  = (line_prefix (inferencer preds faint_preds) page (1 # 2), Ok (None, None, None)).
Proof.
  apply (predict_lines_without_lines Image Polygon (inferencer preds faint_preds)
           page (1 # 2) (1 # 2) (1 # 2) true (mkSample [])).
  - reflexivity.
  - reflexivity.
Defined.




(** C4, as stated, fails: on the sample page the resolver is handed the
    aligned masks, not the filter's output, and the aligner is handed the
    filter's output, not the cleaned set. *)
Lemma aligner_runs_before_resolver :
  let run := predict_regions (inferencer preds preds) page (1 # 2) (1 # 2) false in
  aligner_inputs (trace run) = [filtered_preds] /\
  resolver_inputs (trace run) = [aligned_preds] /\
  ~ (resolver_inputs (trace run) = [filtered_preds] /\
     aligner_inputs (trace run) = [clean_preds]).
Proof.
  split; [reflexivity|]. split; [reflexivity|].
  intros [H _]. vm_compute in H. discriminate.
Qed.

Lemma stage_order_witness :
  trace (predict_regions (inferencer preds preds) page (1 # 2) (1 # 2) false)
  = region_prefix (inferencer preds preds) page (1 # 2)
      ++ stage_calls (binarize page) filtered_preds aligned_preds clean_preds (1 # 2) false
      ++ [CallOrderRegions clean_preds] /\
  aligner_inputs
    (trace (predict_lines (inferencer faint_preds preds) page
                          (1 # 2) (1 # 2) (1 # 2) false true))
  = [filtered_preds].
Proof.
  destruct (stage_order Image Polygon (inferencer preds preds)) as [Hregions _].
  destruct (stage_order Image Polygon (inferencer faint_preds preds)) as [_ Hlines].
  split.
  - apply (Hregions page (1 # 2)%Q (1 # 2)%Q false filtered_preds).
    + reflexivity.
    + discriminate.
  - apply (Hlines page (1 # 2)%Q (1 # 2)%Q (1 # 2)%Q false true filtered_preds).
    + reflexivity.
    + discriminate.
Defined.

Lemma ordered_outputs_paired_witness :
  let self := inferencer preds preds in
  exists clean,
    length (masks clean) = 2 /\
    In (CallCrop clean (binarize page))
       (trace (predict_regions self page (1 # 2) (1 # 2) false)).
Proof.
  intros self.
  destruct (ordered_outputs_paired Image Polygon self page (1 # 2) (1 # 2) false
              None
              [[[0; 0]; [0; 0]]; [[0]]]%Z
              [[(0, 0); (1, 0); (1, 1); (0, 1)]; [(2, 2); (2, 2); (2, 2); (2, 2)]]
              [SegMaskHelper.align_mask page upper_left;
               SegMaskHelper.align_mask page lower_right])
    as [clean [Hcrop [_ [_ [_ [Hlen [Hpos _]]]]]]].
  - reflexivity.
  - exists clean. split; [|exact Hcrop].
    vm_compute in Hcrop.
    repeat match type of Hcrop with
           | _ \/ _ => destruct Hcrop as [Hcrop|Hcrop]
           | False => contradiction
           | _ = _ => try discriminate
           end.
    inversion Hcrop. reflexivity.
Defined.

Lemma containment_invariant_witness :
  (containment_ratio lower_right upper_left < 1 # 2)%Q /\
  (containment_ratio upper_left lower_right < 1 # 2)%Q.
Proof.
  apply (OverlapFacts.containment_invariant preds (1 # 2) 0 1).
  - discriminate.
  - reflexivity.
  - reflexivity.
Defined.

End ReferenceFacts.

(** ** [transcribe_different_model] *)

Section TranscribeFacts.

Variables Image Processor ImageProcessor Model Pixels Ids : Type.
Variable TrOCRProcessor_from_pretrained : string -> Processor.
Variable AutoImageProcessor_from_pretrained : string -> ImageProcessor.
Variable VisionEncoderDecoderModel_from_pretrained : string -> Model.
Variable processor_call : Processor -> Image -> Pixels.
Variable image_processor_call : ImageProcessor -> Image -> Pixels.
Variable generate : Model -> Pixels -> Ids.
Variable batch_decode : Processor -> Ids -> list string.

(** C10. For every image and every model identifier, the call either returns
    the first decoded text together with the confidence [1], or raises
    [IndexError] when the decoder returned no text at all; a returned
    confidence is never anything but [1]. *)
Theorem transcribe_different_model_confidence (image : Image) (model_id : string) :
  let run :=
    transcribe_different_model
      TrOCRProcessor_from_pretrained AutoImageProcessor_from_pretrained
      VisionEncoderDecoderModel_from_pretrained processor_call image_processor_call
      generate batch_decode image model_id in
  match run with
  | Ok (_, confidence) => confidence = 1%Q
  | Raise e => e = IndexError
  end /\
  exists processor ids,
    run = match batch_decode processor ids with
          | generated_text :: _ => Ok (generated_text, 1%Q)
          | [] => Raise IndexError
          end.
Proof.
  intros run. unfold run, transcribe_different_model, py_index.
  destruct (String.eqb model_id "pstroe/bullinger-general-model"); simpl;
    match goal with
    | |- context [batch_decode ?p ?i] =>
        split; [|exists p, i]; destruct (batch_decode p i); reflexivity
    end.
Qed.

End TranscribeFacts.

(* ================================================================== *)
(** * Further properties of [inferencer.py] *)
(* ================================================================== *)

(** ** Which subscripts a comprehension accepts *)

Lemma py_index_in_range {A : Type} (l : list A) (i : Z) :
  (exists x, py_index l i = Some x) <-> index_in_range (length l) i = true.
Proof.
  unfold py_index, index_in_range. rewrite andb_true_iff, Z.leb_le, Z.ltb_lt.
  destruct (Z.leb_spec 0 i) as [Hi|Hi].
  - split.
    + intros [x Hx].
      assert (Z.to_nat i < length l) by (apply nth_error_Some; congruence). lia.
    + intros [_ Hlt].
      destruct (nth_error l (Z.to_nat i)) as [x|] eqn:E; [now exists x|].
      apply nth_error_None in E. lia.
  - destruct (Z.leb_spec (- Z.of_nat (length l)) i) as [Hlo|Hlo].
    + split; [intros _; lia|]. intros _.
      destruct (nth_error l (Z.to_nat (Z.of_nat (length l) + i))) as [x|] eqn:E;
        [now exists x|].
      apply nth_error_None in E. lia.
    + split; [intros [x Hx]; discriminate|lia].
Qed.

Lemma py_select_ok_iff {A : Type} (l : list A) (order : list Z) :
  (exists xs, py_select l order = Ok xs)
  <-> forallb (index_in_range (length l)) order = true.
Proof.
  induction order as [|z order IH]; simpl.
  - split; [reflexivity|]. intros _. now exists [].
  - rewrite andb_true_iff, <- IH, <- py_index_in_range. split.
    + intros [xs H]. destruct (py_index l z) as [x|]; [|discriminate].
      destruct (py_select l order) as [ys|]; [|discriminate].
      split; eexists; reflexivity.
    + intros [[x Hx] [ys Hys]]. rewrite Hx, Hys. eexists; reflexivity.
Qed.

Lemma py_select_fails {A : Type} (l : list A) (order : list Z) :
  forallb (index_in_range (length l)) order = false ->
  py_select l order = Raise IndexError.
Proof.
  intros H. destruct (py_select l order) as [xs|e] eqn:E.
  - assert (forallb (index_in_range (length l)) order = true)
      by (apply py_select_ok_iff; now exists xs).
    congruence.
  - now rewrite (py_select_raises _ _ _ E).
Qed.

(** ** Outcomes of the two stages *)

Section StageOutcomes.

Variables Image Polygon : Type.
Variable self : InferencerT Image Polygon.

(** X1. When the filter answers, [predict_regions] raises "No Regions were
    predicted by the model" exactly when the filter has left no mask,
    whatever the aligner, the resolver, the cropper and the ordering do. *)
Theorem no_regions_iff_filter_leaves_nothing input_image t ct visualize filtered :
  filter_on_pred_threshold (postprocess_seg_mask self)
    (seg_call (seg_model self) (read_page self input_image)) t = Ok filtered ->
  (outcome (predict_regions self input_image t ct visualize) = Raise NoRegionsDetected
   <-> masks filtered = []).
Proof.
  intros F. destruct (masks filtered) as [|m ms] eqn:E.
  - rewrite (predict_regions_nothing_left _ _ self _ _ _ _ _ F E). simpl.
    split; reflexivity.
  - assert (masks filtered <> []) as Hne by (rewrite E; discriminate).
    rewrite (predict_regions_proceeds _ _ self _ _ _ _ _ F Hne). simpl.
    split; [|discriminate].
    repeat match goal with
           | |- context [py_select ?l ?o] =>
               let P := fresh "P" in
               destruct (py_select l o) eqn:P;
               [|apply py_select_raises in P; subst]
           end; discriminate.
Qed.

(** X2. When the filter answers, [predict_lines] raises "No Lines were predicted
    by the model" exactly when nothing is left and [custom_track] is set,
    returns [(None, None, None)] exactly when nothing is left and
    [custom_track] is not set, and otherwise either raises [IndexError] or
    returns a crop sequence and a polygon sequence that are both not [None]. *)
Theorem predict_lines_outcomes image t ct f visualize custom_track filtered :
  filter_on_pred_threshold (postprocess_seg_mask self)
    (seg_call (line_model self) image) t = Ok filtered ->
  let run := predict_lines self image t ct f visualize custom_track in
  (outcome run = Raise NoLinesDetected
   <-> masks filtered = [] /\ custom_track = true) /\
  (outcome run = Ok (None, None, None)
   <-> masks filtered = [] /\ custom_track = false) /\
  (masks filtered <> [] ->
   outcome run = Raise IndexError \/
   exists viz crops polygons, outcome run = Ok (viz, Some crops, Some polygons)).
Proof.
  intros F run. unfold run. destruct (masks filtered) as [|m ms] eqn:E.
  - rewrite (predict_lines_nothing_left _ _ self _ _ _ _ _ _ _ F E). simpl.
    destruct custom_track; intuition (try discriminate).
  - assert (masks filtered <> []) as Hne by (rewrite E; discriminate).
    rewrite (predict_lines_proceeds _ _ self _ _ _ _ _ _ _ F Hne). simpl.
    unfold NoLinesDetected.
    repeat match goal with
           | |- context [py_select ?l ?o] =>
               let P := fresh "P" in
               destruct (py_select l o) eqn:P;
               [|apply py_select_raises in P; subst]
           end;
      (split; [|split]);
      try (split; [discriminate|intros [H _]; discriminate]);
      intros _; auto.
    right. eexists; eexists; eexists. reflexivity.
Qed.

End StageOutcomes.

(** ** What the stages return and which calls they make *)

Section StageResults.

Variables Image Polygon : Type.
Variable self : InferencerT Image Polygon.

(** X4. In a successful [predict_lines] call that returns sequences, the crops
    and the polygons are as long as the line order and are read off at the
    same indices of the cropper's two outputs; when the cropper's output is
    aligned with the cleaned set, crop and polygon at one position come from
    one instance. The visualisation, if asked for, is the one the region
    model renders (the line model's renderer is not used); it is [None]
    otherwise. *)
Theorem ordered_lines_paired image t ct f visualize custom_track viz crops polygons :
  outcome (predict_lines self image t ct f visualize custom_track)
  = Ok (viz, Some crops, Some polygons) ->
  exists clean : DetDataSample,
    let cropped := crop_masks (process_seg_mask self) clean image in
    let order := order_lines (ordering self) clean f in
    In (CallCrop clean image)
       (trace (predict_lines self image t ct f visualize custom_track)) /\
    In (CallOrderLines clean f)
       (trace (predict_lines self image t ct f visualize custom_track)) /\
    viz = (if visualize
           then Some (visualize_preds (seg_model self) image clean)
           else None) /\
    length crops = length order /\
    length polygons = length order /\
    (forall i z, nth_error order i = Some z ->
       exists c p,
         nth_error crops i = Some c /\ py_index (fst cropped) z = Some c /\
         nth_error polygons i = Some p /\ py_index (snd cropped) z = Some p) /\
    (forall (crop_one : Instance -> Image) (polygon_one : Instance -> Polygon),
        cropped = (map crop_one (pred_instances clean),
                   map polygon_one (pred_instances clean)) ->
        forall i, i < length order ->
          exists inst,
            In inst (pred_instances clean) /\
            nth_error crops i = Some (crop_one inst) /\
            nth_error polygons i = Some (polygon_one inst)).
Proof.
  intros H.
  destruct (filter_on_pred_threshold (postprocess_seg_mask self)
              (seg_call (line_model self) image) t) as [filtered|e] eqn:F;
    [|rewrite (predict_lines_filter_raises _ _ self _ _ _ _ _ _ _ F) in H; discriminate].
  destruct (masks filtered) as [|m0 ms0] eqn:E.
  { rewrite (predict_lines_nothing_left _ _ self _ _ _ _ _ _ _ F E) in H.
    simpl in H. destruct custom_track; discriminate. }
  assert (masks filtered <> []) as Hne by (rewrite E; discriminate).
  rewrite (predict_lines_proceeds _ _ self _ _ _ _ _ _ _ F Hne) in *.
  cbv zeta in *. unfold outcome in H. unfold trace. cbn [fst snd] in *.
  set (clean := remove_overlapping_masks (postprocess_seg_mask self)
                  (align_masks_with_image (process_seg_mask self) filtered image) ct) in *.
  set (order := order_lines (ordering self) clean f) in *.
  set (cropped := crop_masks (process_seg_mask self) clean image) in *.
  destruct (py_select (fst cropped) order) as [cs|] eqn:Pc; [|discriminate].
  destruct (py_select (snd cropped) order) as [ps|] eqn:Pp; [|discriminate].
  inversion H; subst cs ps. clear H.
  assert (forall i z, nth_error order i = Some z ->
            exists c p,
              nth_error crops i = Some c /\ py_index (fst cropped) z = Some c /\
              nth_error polygons i = Some p /\ py_index (snd cropped) z = Some p)
    as Hpos.
  { intros i z Hi.
    destruct (py_select_nth _ _ _ Pc i z Hi) as [c [Hc1 Hc2]].
    destruct (py_select_nth _ _ _ Pp i z Hi) as [p [Hp1 Hp2]].
    exists c, p. repeat apply conj; assumption. }
  exists clean. repeat apply conj.
  - apply in_or_app. right. apply in_or_app. left.
    unfold stage_calls. destruct visualize; simpl; auto.
  - apply in_or_app. right. apply in_or_app. right. simpl. auto.
  - reflexivity.
  - eapply py_select_length; eassumption.
  - eapply py_select_length; eassumption.
  - exact Hpos.
  - intros crop_one polygon_one Hal i Hi.
    change (i < length order) in Hi.
    change (cropped = (map crop_one (pred_instances clean),
                       map polygon_one (pred_instances clean))) in Hal.
    destruct (nth_error order i) as [z|] eqn:Ez;
      [|apply nth_error_None in Ez; lia].
    destruct (Hpos i z Ez) as [c [p [Hc1 [Hc2 [Hp1 Hp2]]]]].
    rewrite Hal in Hc2, Hp2. simpl in Hc2, Hp2.
    rewrite py_index_map in Hc2. rewrite py_index_map in Hp2.
    destruct (py_index (pred_instances clean) z) as [inst|] eqn:Ei; [|discriminate].
    simpl in Hc2, Hp2. inversion Hc2; inversion Hp2; subst.
    exists inst. repeat apply conj; try assumption.
    eapply py_index_In; eassumption.
Qed.

(** X5. Past a non-empty filter result, [predict_regions] returns exactly when
    every index of the reading order is an acceptable subscript
    ([-len <= i < len]) of the cropper's crops, of the cropper's polygons and
    of the cleaned masks; otherwise it raises [IndexError]. *)
Theorem predict_regions_returns_iff input_image t ct visualize filtered :
  filter_on_pred_threshold (postprocess_seg_mask self)
    (seg_call (seg_model self) (read_page self input_image)) t = Ok filtered ->
  masks filtered <> [] ->
  let image := read_page self input_image in
  let aligned := align_masks_with_image (process_seg_mask self) filtered image in
  let clean := remove_overlapping_masks (postprocess_seg_mask self) aligned ct in
  let cropped := crop_masks (process_seg_mask self) clean image in
  let order := order_regions_marginalia (ordering self) clean in
  let acceptable :=
    forallb (index_in_range (length (fst cropped))) order
    && forallb (index_in_range (length (snd cropped))) order
    && forallb (index_in_range (length (masks clean))) order in
  let run := predict_regions self input_image t ct visualize in
  ((exists r, outcome run = Ok r) <-> acceptable = true) /\
  (outcome run = Raise IndexError <-> acceptable = false).
Proof.
  intros F Hne image aligned clean cropped order acceptable run.
  unfold run. rewrite (predict_regions_proceeds _ _ self _ _ _ _ _ F Hne).
  cbv zeta. unfold outcome. cbn [snd].
  fold image. fold aligned. fold clean. fold cropped. fold order.
  unfold acceptable.
  destruct (forallb (index_in_range (length (fst cropped))) order) eqn:V1.
  - apply py_select_ok_iff in V1. destruct V1 as [cs ->].
    destruct (forallb (index_in_range (length (snd cropped))) order) eqn:V2.
    + apply py_select_ok_iff in V2. destruct V2 as [ps ->].
      destruct (forallb (index_in_range (length (masks clean))) order) eqn:V3.
      * apply py_select_ok_iff in V3. destruct V3 as [qs ->]. simpl.
        split; split; try discriminate; try reflexivity.
        intros _. eexists. reflexivity.
      * rewrite (py_select_fails _ _ V3). simpl.
        split; split; try discriminate; try reflexivity.
        intros [r Hr]. discriminate.
    + rewrite (py_select_fails _ _ V2). simpl.
      split; split; try discriminate; try reflexivity.
      intros [r Hr]. discriminate.
  - rewrite (py_select_fails _ _ V1). simpl.
    split; split; try discriminate; try reflexivity.
    intros [r Hr]. discriminate.
Qed.

(** X6. When the reading order is a rearrangement of the positions of the cleaned
    set and the cropper has returned one crop and one polygon per cleaned
    instance, [predict_regions] returns, and the returned crops, polygons and
    masks are rearrangements of the cropper's crops, the cropper's polygons
    and the cleaned masks: nothing lost, nothing twice. *)
Theorem predict_regions_returns_rearranged input_image t ct visualize filtered
        (positions : list nat) :
  filter_on_pred_threshold (postprocess_seg_mask self)
    (seg_call (seg_model self) (read_page self input_image)) t = Ok filtered ->
  masks filtered <> [] ->
  let image := read_page self input_image in
  let aligned := align_masks_with_image (process_seg_mask self) filtered image in
  let clean := remove_overlapping_masks (postprocess_seg_mask self) aligned ct in
  let cropped := crop_masks (process_seg_mask self) clean image in
  order_regions_marginalia (ordering self) clean = map Z.of_nat positions ->
  Permutation positions (seq 0 (length (masks clean))) ->
  length (fst cropped) = length (masks clean) ->
  length (snd cropped) = length (masks clean) ->
  exists crops polygons ms,
    outcome (predict_regions self input_image t ct visualize)
    = Ok (if visualize
          then Some (visualize_preds (seg_model self) image clean)
          else None,
          crops, polygons, ms) /\
    Permutation crops (fst cropped) /\
    Permutation polygons (snd cropped) /\
    Permutation ms (masks clean).
Proof.
  intros F Hne image aligned clean cropped Horder HP Hc Hp.
  rewrite (predict_regions_proceeds _ _ self _ _ _ _ _ F Hne).
  cbv zeta. unfold outcome. cbn [snd].
  fold image. fold aligned. fold clean. fold cropped. rewrite Horder.
  destruct (OrderFacts.py_select_rearranges (fst cropped) positions)
    as [cs [-> Pcs]]; [now rewrite Hc|].
  destruct (OrderFacts.py_select_rearranges (snd cropped) positions)
    as [ps [-> Pps]]; [now rewrite Hp|].
  destruct (OrderFacts.py_select_rearranges (masks clean) positions HP)
    as [qs [-> Pqs]].
  exists cs, ps, qs. repeat apply conj; try assumption. reflexivity.
Qed.

(** X7. The same for [predict_lines]: with a line order that rearranges the
    positions of the cleaned set and one crop and one polygon per cleaned
    instance, the call returns rearrangements of the cropper's crops and
    polygons. *)
Theorem predict_lines_returns_rearranged image t ct f visualize custom_track filtered
        (positions : list nat) :
  filter_on_pred_threshold (postprocess_seg_mask self)
    (seg_call (line_model self) image) t = Ok filtered ->
  masks filtered <> [] ->
  let aligned := align_masks_with_image (process_seg_mask self) filtered image in
  let clean := remove_overlapping_masks (postprocess_seg_mask self) aligned ct in
  let cropped := crop_masks (process_seg_mask self) clean image in
  order_lines (ordering self) clean f = map Z.of_nat positions ->
  Permutation positions (seq 0 (length (masks clean))) ->
  length (fst cropped) = length (masks clean) ->
  length (snd cropped) = length (masks clean) ->
  exists crops polygons,
    outcome (predict_lines self image t ct f visualize custom_track)
    = Ok (if visualize
          then Some (visualize_preds (seg_model self) image clean)
          else None,
          Some crops, Some polygons) /\
    Permutation crops (fst cropped) /\
    Permutation polygons (snd cropped).
Proof.
  intros F Hne aligned clean cropped Horder HP Hc Hp.
  rewrite (predict_lines_proceeds _ _ self _ _ _ _ _ _ _ F Hne).
  cbv zeta. unfold outcome. cbn [snd].
  fold aligned. fold clean. fold cropped. rewrite Horder.
  destruct (OrderFacts.py_select_rearranges (fst cropped) positions)
    as [cs [-> Pcs]]; [now rewrite Hc|].
  destruct (OrderFacts.py_select_rearranges (snd cropped) positions)
    as [ps [-> Pps]]; [now rewrite Hp|].
  exists cs, ps. repeat apply conj; try assumption. reflexivity.
Qed.

End StageResults.

Section StageCalls.

Variables Image Polygon : Type.
Variable self : InferencerT Image Polygon.

(** X8. [predict_regions] works on the binarised page throughout: two inputs with
    the same binarised and read image give the same outcome, and after the
    model call every call that takes an image (aligner, visualiser, cropper)
    is handed that image, never the original input. *)
Theorem predict_regions_sees_binarised_page input_image other_image t ct visualize :
  read_page self input_image = read_page self other_image ->
  outcome (predict_regions self input_image t ct visualize)
  = outcome (predict_regions self other_image t ct visualize) /\
  forall ev,
    In ev (trace (predict_regions self input_image t ct visualize)) ->
    match ev with
    | CallSegModel image | CallAlign _ image | CallVisualize image _
    | CallCrop _ image => image = read_page self other_image
    | _ => True
    end.
Proof.
  intros Heq.
  destruct (filter_on_pred_threshold (postprocess_seg_mask self)
              (seg_call (seg_model self) (read_page self input_image)) t)
    as [filtered|e] eqn:F1.
  - pose proof F1 as F2. rewrite Heq in F2.
    destruct (masks filtered) as [|m ms] eqn:E.
    + rewrite (predict_regions_nothing_left _ _ self _ _ _ _ _ F1 E).
      rewrite (predict_regions_nothing_left _ _ self _ _ _ _ _ F2 E).
      split; [reflexivity|]. unfold trace, region_prefix. cbn [fst].
      intros ev Hin. simpl in Hin.
      repeat destruct Hin as [Hin|Hin]; subst; auto; contradiction.
    + assert (masks filtered <> []) as Hne by (rewrite E; discriminate).
      rewrite (predict_regions_proceeds _ _ self _ _ _ _ _ F1 Hne).
      rewrite (predict_regions_proceeds _ _ self _ _ _ _ _ F2 Hne).
      cbv zeta. unfold outcome, trace. cbn [fst snd]. rewrite Heq.
      split; [reflexivity|]. unfold region_prefix, stage_calls.
      intros ev Hin. rewrite Heq in Hin.
      destruct visualize; simpl in Hin;
        repeat destruct Hin as [Hin|Hin]; subst; auto; contradiction.
  - pose proof F1 as F2. rewrite Heq in F2.
    rewrite (predict_regions_filter_raises _ _ self _ _ _ _ _ F1).
    rewrite (predict_regions_filter_raises _ _ self _ _ _ _ _ F2).
    split; [reflexivity|]. unfold trace, region_prefix. cbn [fst].
    intros ev Hin. simpl in Hin.
    repeat destruct Hin as [Hin|Hin]; subst; auto; contradiction.
Qed.

(** X9. Every [predict_regions] call binarises once, reads once, calls the region
    model once and the filter once, and never calls the line model; every
    [predict_lines] call calls the line model once and the filter once, and
    never binarises, reads or calls the region model. In both, aligner,
    resolver, cropper and ordering are called together, at most once each, and
    the visualiser at most once and never when [visualize] is off. *)
Theorem stage_call_counts input_image image t ct f visualize custom_track :
  let regions := trace (predict_regions self input_image t ct visualize) in
  let lines := trace (predict_lines self image t ct f visualize custom_track) in
  (calls is_binarize_call regions = 1 /\
   calls is_imread_call regions = 1 /\
   calls is_seg_model_call regions = 1 /\
   calls is_line_model_call regions = 0 /\
   calls is_filter_call regions = 1 /\
   calls is_align_call regions <= 1 /\
   calls is_resolve_call regions = calls is_align_call regions /\
   calls is_crop_call regions = calls is_align_call regions /\
   calls is_order_call regions = calls is_align_call regions /\
   calls is_visualize_call regions
   = (if visualize then calls is_align_call regions else 0)) /\
  (calls is_binarize_call lines = 0 /\
   calls is_imread_call lines = 0 /\
   calls is_seg_model_call lines = 0 /\
   calls is_line_model_call lines = 1 /\
   calls is_filter_call lines = 1 /\
   calls is_align_call lines <= 1 /\
   calls is_resolve_call lines = calls is_align_call lines /\
   calls is_crop_call lines = calls is_align_call lines /\
   calls is_order_call lines = calls is_align_call lines /\
   calls is_visualize_call lines
   = (if visualize then calls is_align_call lines else 0)).
Proof.
  intros regions lines. unfold regions, lines. split.
  - destruct (filter_on_pred_threshold (postprocess_seg_mask self)
                (seg_call (seg_model self) (read_page self input_image)) t)
      as [filtered|e] eqn:F.
    + destruct (masks filtered) as [|m ms] eqn:E.
      * rewrite (predict_regions_nothing_left _ _ self _ _ _ _ _ F E).
        destruct visualize; cbn; repeat apply conj; auto.
      * assert (masks filtered <> []) as Hne by (rewrite E; discriminate).
        rewrite (predict_regions_proceeds _ _ self _ _ _ _ _ F Hne).
        destruct visualize; cbn; repeat apply conj; auto.
    + rewrite (predict_regions_filter_raises _ _ self _ _ _ _ _ F).
      destruct visualize; cbn; repeat apply conj; auto.
  - destruct (filter_on_pred_threshold (postprocess_seg_mask self)
                (seg_call (line_model self) image) t) as [filtered|e] eqn:F.
    + destruct (masks filtered) as [|m ms] eqn:E.
      * rewrite (predict_lines_nothing_left _ _ self _ _ _ _ _ _ _ F E).
        destruct visualize; cbn; repeat apply conj; auto.
      * assert (masks filtered <> []) as Hne by (rewrite E; discriminate).
        rewrite (predict_lines_proceeds _ _ self _ _ _ _ _ _ _ F Hne).
        destruct visualize; cbn; repeat apply conj; auto.
    + rewrite (predict_lines_filter_raises _ _ self _ _ _ _ _ _ _ F).
      destruct visualize; cbn; repeat apply conj; auto.
Qed.

End StageCalls.

(** ** [transcribe_different_model]: which loaders a call uses *)

Section TranscribeLoaders.

Variables Image Processor ImageProcessor Model Pixels Ids : Type.
Variable TrOCRProcessor_from_pretrained : string -> Processor.
Variable AutoImageProcessor_from_pretrained : string -> ImageProcessor.
Variable VisionEncoderDecoderModel_from_pretrained : string -> Model.
Variable processor_call : Processor -> Image -> Pixels.
Variable image_processor_call : ImageProcessor -> Image -> Pixels.
Variable generate : Model -> Pixels -> Ids.
Variable batch_decode : Processor -> Ids -> list string.

(** X11. For every model identifier other than "pstroe/bullinger-general-model"
    the call does not touch the [AutoImageProcessor]: whatever image
    processor is installed, the outcome is the same, and it is the first text
    that the identifier's own processor decodes from what the identifier's
    own model generates on the pixels of that processor. *)
Theorem other_models_use_their_own_processor
        (OtherImageProcessor : Type)
        (other_from_pretrained : string -> OtherImageProcessor)
        (other_call : OtherImageProcessor -> Image -> Pixels)
        (image : Image) (model_id : string) :
  model_id <> "pstroe/bullinger-general-model"%string ->
  let processor := TrOCRProcessor_from_pretrained model_id in
  let model := VisionEncoderDecoderModel_from_pretrained model_id in
  transcribe_different_model
    TrOCRProcessor_from_pretrained AutoImageProcessor_from_pretrained
    VisionEncoderDecoderModel_from_pretrained processor_call image_processor_call
    generate batch_decode image model_id
  = transcribe_different_model
      TrOCRProcessor_from_pretrained other_from_pretrained
      VisionEncoderDecoderModel_from_pretrained processor_call other_call
      generate batch_decode image model_id /\
  transcribe_different_model
    TrOCRProcessor_from_pretrained AutoImageProcessor_from_pretrained
    VisionEncoderDecoderModel_from_pretrained processor_call image_processor_call
    generate batch_decode image model_id
  = match batch_decode processor (generate model (processor_call processor image)) with
    | generated_text :: _ => Ok (generated_text, 1%Q)
    | [] => Raise IndexError
    end.
Proof.
  intros Hid processor model. apply String.eqb_neq in Hid.
  unfold transcribe_different_model, py_index. rewrite Hid. simpl.
  split; [reflexivity|].
  unfold processor, model.
  destruct (batch_decode _ _); reflexivity.
Qed.

(** X12. For "pstroe/bullinger-general-model" the text is decoded by the
    "microsoft/trocr-base-handwritten" processor from what the bullinger model
    generates on the pixels of the bullinger image processor; the TrOCR
    processor is not applied to the image. *)
Theorem bullinger_uses_trocr_base_processor
        (other_processor_call : Processor -> Image -> Pixels) (image : Image) :
  let processor := TrOCRProcessor_from_pretrained "microsoft/trocr-base-handwritten" in
  let image_processor :=
    AutoImageProcessor_from_pretrained "pstroe/bullinger-general-model" in
  let model := VisionEncoderDecoderModel_from_pretrained "pstroe/bullinger-general-model" in
  transcribe_different_model
    TrOCRProcessor_from_pretrained AutoImageProcessor_from_pretrained
    VisionEncoderDecoderModel_from_pretrained processor_call image_processor_call
    generate batch_decode image "pstroe/bullinger-general-model"
  = transcribe_different_model
      TrOCRProcessor_from_pretrained AutoImageProcessor_from_pretrained
      VisionEncoderDecoderModel_from_pretrained other_processor_call image_processor_call
      generate batch_decode image "pstroe/bullinger-general-model" /\
  transcribe_different_model
    TrOCRProcessor_from_pretrained AutoImageProcessor_from_pretrained
    VisionEncoderDecoderModel_from_pretrained processor_call image_processor_call
    generate batch_decode image "pstroe/bullinger-general-model"
  = match batch_decode processor
            (generate model (image_processor_call image_processor image)) with
    | generated_text :: _ => Ok (generated_text, 1%Q)
    | [] => Raise IndexError
    end.
Proof.
  intros processor image_processor model.
  unfold transcribe_different_model, py_index. simpl.
  split; [reflexivity|].
  unfold processor, image_processor, model.
  destruct (batch_decode _ _); reflexivity.
Qed.

End TranscribeLoaders.

(** ** The further properties on the assembled inferencer *)

Module ReferenceStages.
Import Reference.

(** Negative indices count from the end; an index past the end raises. *)
Example sample_negative_order :
  outcome (predict_regions
             (Variants.with_ordering (Variants.fixed_order [-1; 0]%Z)
                                     (inferencer preds preds))
             page (1 # 2) (1 # 2) false)
  = Ok (None,
        [[[0; 0]; [0; 0]]; [[0]]]%Z,
        [[(0, 0); (1, 0); (1, 1); (0, 1)]; [(2, 2); (2, 2); (2, 2); (2, 2)]],
        [SegMaskHelper.align_mask page upper_left;
         SegMaskHelper.align_mask page lower_right]).
Proof. reflexivity. Qed.

Example sample_order_past_the_end :
  outcome (predict_regions
             (Variants.with_ordering (Variants.fixed_order [0; 2]%Z)
                                     (inferencer preds preds))
             page (1 # 2) (1 # 2) false)
  = Raise IndexError.
Proof. reflexivity. Qed.

Lemma no_regions_iff_filter_leaves_nothing_witness :
  outcome (predict_regions (inferencer faint_preds preds) page (1 # 2) (1 # 2) true)
  = Raise NoRegionsDetected.
Proof.
  apply (no_regions_iff_filter_leaves_nothing Image Polygon
           (inferencer faint_preds preds) page (1 # 2) (1 # 2) true (mkSample [])).
  - reflexivity.
  - reflexivity.
Defined.

Lemma predict_lines_outcomes_witness :
  outcome (predict_lines (inferencer preds faint_preds) page
                         (1 # 2) (1 # 2) (1 # 2) true false)
  = Ok (None, None, None).
Proof.
  destruct (predict_lines_outcomes Image Polygon (inferencer preds faint_preds)
              page (1 # 2) (1 # 2) (1 # 2) true false (mkSample []))
    as [_ [Hnone _]].
  - reflexivity.
  - apply Hnone. split; reflexivity.
Defined.

Lemma ordered_lines_paired_witness :
  exists clean,
    In (CallOrderLines clean (1 # 2))
       (trace (predict_lines (inferencer preds preds) page
                             (1 # 2) (1 # 2) (1 # 2) false true)).
Proof.
  destruct (ordered_lines_paired Image Polygon (inferencer preds preds)
              page (1 # 2) (1 # 2) (1 # 2) false true
              None
              [[[10; 20]; [30; 40]]; [[50]]]%Z
              [[(0, 0); (1, 0); (1, 1); (0, 1)]; [(2, 2); (2, 2); (2, 2); (2, 2)]])
    as [clean [_ [Horder _]]].
  - reflexivity.
  - exists clean. exact Horder.
Defined.

Lemma predict_regions_returns_iff_witness :
  outcome (predict_regions
             (Variants.with_ordering (Variants.fixed_order [0; 2]%Z)
                                     (inferencer preds preds))
             page (1 # 2) (1 # 2) false)
  = Raise IndexError.
Proof.
  destruct (predict_regions_returns_iff Image Polygon
              (Variants.with_ordering (Variants.fixed_order [0; 2]%Z)
                                      (inferencer preds preds))
              page (1 # 2) (1 # 2) false filtered_preds)
    as [_ Hraise].
  - reflexivity.
  - discriminate.
  - apply Hraise. reflexivity.
Defined.

Lemma predict_regions_returns_rearranged_witness :
  exists crops polygons ms,
    outcome (predict_regions (inferencer preds preds) page (1 # 2) (1 # 2) false)
    = Ok (None, crops, polygons, ms) /\
    Permutation ms (masks clean_preds).
Proof.
  destruct (predict_regions_returns_rearranged Image Polygon (inferencer preds preds)
              page (1 # 2) (1 # 2) false filtered_preds [1; 0])
    as [crops [polygons [ms [Hout [_ [_ Hms]]]]]].
  - reflexivity.
  - discriminate.
  - reflexivity.
  - apply perm_swap.
  - reflexivity.
  - reflexivity.
  - exists crops, polygons, ms. split; [exact Hout|exact Hms].
Defined.

Lemma predict_lines_returns_rearranged_witness :
  exists crops polygons,
    outcome (predict_lines (inferencer preds preds) page
                           (1 # 2) (1 # 2) (1 # 2) false true)
    = Ok (None, Some crops, Some polygons) /\
    Permutation crops (fst (SegMaskHelper.crop_masks
                              (FilterSegMask.remove_overlapping_masks
                                 (SegMaskHelper.align_masks_with_image filtered_preds page)
                                 (1 # 2))
                              page)).
Proof.
  destruct (predict_lines_returns_rearranged Image Polygon (inferencer preds preds)
              page (1 # 2) (1 # 2) (1 # 2) false true filtered_preds [1; 0])
    as [crops [polygons [Hout [Hcrops _]]]].
  - reflexivity.
  - discriminate.
  - reflexivity.
  - apply perm_swap.
  - reflexivity.
  - reflexivity.
  - exists crops, polygons. split; [exact Hout|exact Hcrops].
Defined.

Lemma predict_regions_sees_binarised_page_witness :
  outcome (predict_regions (inferencer preds preds) page (1 # 2) (1 # 2) true)
  = outcome (predict_regions (inferencer preds preds) (binarize page)
                             (1 # 2) (1 # 2) true).
Proof.
  apply (predict_regions_sees_binarised_page Image Polygon (inferencer preds preds)
           page (binarize page) (1 # 2) (1 # 2) true).
  reflexivity.
Defined.

Lemma other_models_use_their_own_processor_witness :
  transcribe_different_model
    (fun name : string => name) (fun name : string => name) (fun name : string => name)
    (fun (processor : string) (image : string) => append processor image)
    (fun (processor : string) (image : string) => image)
    (fun (model : string) (pixels : string) => pixels)
    (fun (processor : string) (ids : string) => [ids])
    "scan"%string "microsoft/trocr-large-handwritten"%string
  = Ok ("microsoft/trocr-large-handwrittenscan"%string, 1%Q).
Proof.
  destruct (other_models_use_their_own_processor
              string string string string string string
              (fun name : string => name) (fun name : string => name)
              (fun name : string => name)
              (fun (processor : string) (image : string) => append processor image)
              (fun (processor : string) (image : string) => image)
              (fun (model : string) (pixels : string) => pixels)
              (fun (processor : string) (ids : string) => [ids])
              string (fun name : string => name)
              (fun (processor : string) (image : string) => image)
              "scan"%string "microsoft/trocr-large-handwritten"%string)
    as [_ H].
  - discriminate.
  - rewrite H. reflexivity.
Defined.

End ReferenceStages.
